(** * plotext: bar and histogram data transformations

    A shallow embedding of [plotext/_utility/bar.py]: the label resolver
    [update_bars], the limit calculators [update_bar_xlim] and
    [update_bar_ylim], the bar geometry generator [bars] and the histogram
    binner [hist_data], together with the part of Python's numeric
    semantics these functions rely on (unbounded integers, binary64
    floats, true division, exact mixed comparisons, exceptions). *)

From Stdlib Require Import String Ascii DecimalString.
From Stdlib Require Import ZArith List Bool Lia.
From Stdlib Require Import Floats.SpecFloat.
Import ListNotations.

Local Open Scope Z_scope.

(** ** Exceptions and the error monad *)

Inductive exn : Type :=
| ZeroDivisionError
| OverflowError
| ValueError
| IndexError
| TypeError.

Inductive result (A : Type) : Type :=
| Ok (a : A)
| Raise (e : exn).

Arguments Ok {A} a.
Arguments Raise {A} e.

Definition bind {A B : Type} (c : result A) (k : A -> result B) : result B :=
  match c with
  | Ok a => k a
  | Raise e => Raise e
  end.

Declare Scope py_scope.
Delimit Scope py_scope with py.
Notation "x <- c ;; k" := (bind c (fun x => k))
  (at level 61, c at next level, right associativity) : py_scope.
Local Open Scope py_scope.

(** A list comprehension whose element expression may raise: elements are
    evaluated left to right and the first exception aborts the whole
    comprehension. *)
Fixpoint comprehension {A B : Type} (f : A -> result B) (l : list A)
  : result (list B) :=
  match l with
  | [] => Ok []
  | a :: l' => b <- f a ;; bs <- comprehension f l' ;; Ok (b :: bs)
  end.

(** ** Python numbers *)

Module Py.

(** binary64: 53 bits of precision, infinities at exponent 1024. *)
Definition prec : Z := 53.
Definition emax : Z := 1024.

Definition float : Type := spec_float.

Inductive num : Type :=
| Int (z : Z)
| Float (f : float).

Definition pos_zero : float := S754_zero false.

(** [float(z)] for an [int]: round to nearest even, [OverflowError] when
    the integer is too large for a double. *)
Definition float_of_int (z : Z) : result float :=
  match binary_normalize prec emax z 0 false with
  | S754_infinity _ => Raise OverflowError
  | f => Ok f
  end.

Definition to_float (a : num) : result float :=
  match a with
  | Int z => float_of_int z
  | Float f => Ok f
  end.

Definition is_zero (f : float) : bool :=
  match f with
  | S754_zero _ => true
  | _ => false
  end.

(** [a - b]: exact on two ints, otherwise both operands become floats. *)
Definition sub (a b : num) : result num :=
  match a, b with
  | Int x, Int y => Ok (Int (x - y))
  | _, _ =>
      fa <- to_float a ;; fb <- to_float b ;;
      Ok (Float (SFsub prec emax fa fb))
  end.

Definition add (a b : num) : result num :=
  match a, b with
  | Int x, Int y => Ok (Int (x + y))
  | _, _ =>
      fa <- to_float a ;; fb <- to_float b ;;
      Ok (Float (SFadd prec emax fa fb))
  end.

Definition mul (a b : num) : result num :=
  match a, b with
  | Int x, Int y => Ok (Int (x * y))
  | _, _ =>
      fa <- to_float a ;; fb <- to_float b ;;
      Ok (Float (SFmul prec emax fa fb))
  end.

(** [x / y] on two ints: the correctly rounded quotient, computed on the
    integers themselves (no prior conversion of the operands). *)
Definition int_truediv (x y : Z) : result float :=
  match y, x with
  | Z0, _ => Raise ZeroDivisionError
  | _, Z0 => Ok (S754_zero (y <? 0))
  | _, _ =>
      match SFdiv prec emax
              (S754_finite (x <? 0) (Z.to_pos (Z.abs x)) 0)
              (S754_finite (y <? 0) (Z.to_pos (Z.abs y)) 0) with
      | S754_infinity _ => Raise OverflowError
      | f => Ok f
      end
  end.

(** [a / b]: true division, always a float; a zero divisor raises. *)
Definition truediv (a b : num) : result num :=
  match a, b with
  | Int x, Int y => f <- int_truediv x y ;; Ok (Float f)
  | _, _ =>
      fa <- to_float a ;; fb <- to_float b ;;
      if is_zero fb then Raise ZeroDivisionError
      else Ok (Float (SFdiv prec emax fa fb))
  end.

(** Comparison of an int with a float is exact: the integer is never
    rounded to a double first. *)
Definition compare_int_float (z : Z) (f : float) : option comparison :=
  match f with
  | S754_nan => None
  | S754_infinity s => Some (if s then Gt else Lt)
  | S754_zero _ => Some (z ?= 0)
  | S754_finite s m e =>
      let mz := cond_Zopp s (Zpos m) in
      Some (if 0 <=? e then z ?= mz * 2 ^ e else z * 2 ^ (- e) ?= mz)
  end.

Definition compare (a b : num) : option comparison :=
  match a, b with
  | Int x, Int y => Some (x ?= y)
  | Int x, Float g => compare_int_float x g
  | Float f, Int y => option_map CompOpp (compare_int_float y f)
  | Float f, Float g => SFcompare f g
  end.

Definition ltb (a b : num) : bool :=
  match compare a b with Some Lt => true | _ => false end.

Definition gtb (a b : num) : bool :=
  match compare a b with Some Gt => true | _ => false end.

Definition eqb (a b : num) : bool :=
  match compare a b with Some Eq => true | _ => false end.

(** [a != b] *)
Definition neb (a b : num) : bool := negb (eqb a b).

(** [int(a)]: truncation toward zero. *)
Definition trunc (f : float) : result Z :=
  match f with
  | S754_nan => Raise ValueError
  | S754_infinity _ => Raise OverflowError
  | S754_zero _ => Ok 0
  | S754_finite s m e =>
      Ok (cond_Zopp s (if 0 <=? e then Zpos m * 2 ^ e else Zpos m / 2 ^ (- e)))
  end.

Definition int (a : num) : result Z :=
  match a with
  | Int z => Ok z
  | Float f => trunc f
  end.

(** [min(l)] and [max(l)]: the first smallest, resp. largest, element. *)
Fixpoint min_from (cur : num) (l : list num) : num :=
  match l with
  | [] => cur
  | item :: l' => min_from (if ltb item cur then item else cur) l'
  end.

Fixpoint max_from (cur : num) (l : list num) : num :=
  match l with
  | [] => cur
  | item :: l' => max_from (if gtb item cur then item else cur) l'
  end.

Definition min (l : list num) : result num :=
  match l with
  | [] => Raise ValueError
  | a :: l' => Ok (min_from a l')
  end.

Definition max (l : list num) : result num :=
  match l with
  | [] => Raise ValueError
  | a :: l' => Ok (max_from a l')
  end.

(** The double nearest to the decimal literal [n / d]. *)
Definition lit (n d : Z) : float :=
  SFdiv prec emax (binary_normalize prec emax n 0 false)
                  (binary_normalize prec emax d 0 false).

End Py.

(** ** Python containers *)

(** [l[i]] for an index produced by [range]: never negative. *)
Definition getitem {A : Type} (l : list A) (i : nat) : result A :=
  match nth_error l i with
  | Some a => Ok a
  | None => Raise IndexError
  end.

(** Replace the element at position [i] (which must exist). *)
Fixpoint setitem {A : Type} (l : list A) (i : nat) (a : A) : list A :=
  match l, i with
  | [], _ => []
  | _ :: l', O => a :: l'
  | b :: l', S i' => b :: setitem l' i' a
  end.

(** [l[i] += 1] for an arbitrary integer index: a negative index counts
    from the end of the list, anything outside the list raises. *)
Definition increment (l : list Z) (i : Z) : result (list Z) :=
  let len := Z.of_nat (length l) in
  let j := if i <? 0 then i + len else i in
  if (j <? 0) || (len <=? j) then Raise IndexError
  else
    c <- getitem l (Z.to_nat j) ;;
    Ok (setitem l (Z.to_nat j) (c + 1)).

(** A dict with string keys keeps its entries in insertion order. *)
Definition dict (V : Type) : Type := list (string * V).

Fixpoint dict_get {V : Type} (d : dict V) (k : string) : option V :=
  match d with
  | [] => None
  | (k', v) :: d' => if String.eqb k k' then Some v else dict_get d' k
  end.

(** [d.update({k: v})]: an existing key keeps its place and takes the new
    value, a new key goes to the end. *)
Fixpoint dict_update {V : Type} (d : dict V) (k : string) (v : V) : dict V :=
  match d with
  | [] => [(k, v)]
  | (k', v') :: d' =>
      if String.eqb k k' then (k, v) :: d' else (k', v') :: dict_update d' k v
  end.

Definition dict_len {V : Type} (d : dict V) : Z := Z.of_nat (length d).

(** ** Bar functions *)

(** An x value of a bar plot: a number or a label. *)
Inductive value : Type :=
| Num (n : Py.num)
| Str (s : string).

Definition is_str (el : value) : bool :=
  match el with
  | Str _ => true
  | Num _ => false
  end.

(** The registry of bar names and their coordinates. *)
Definition registry : Type := dict Z.

Section Bar.

(** [repr] of a float, a built-in of the language. *)
Variable float_repr : Py.float -> string.

(** [get_labels] of [plotext/_utility/plot.py] and [linspace] of
    [plotext/_utility/data.py] are imported by [bar.py]. *)
Variable get_labels : list value -> string -> result (list string).
Variable linspace : Py.num -> Py.num -> Z -> result (list Py.num).

(** [str(el)] *)
Definition str (el : value) : string :=
  match el with
  | Str s => s
  | Num (Py.Int z) => NilZero.string_of_int (Z.to_int z)
  | Num (Py.Float f) => float_repr f
  end.

(** The loop of [update_bars] over the labels, threading the list [xn]
    built so far and the registry. *)
Fixpoint update_bars_loop (xlabels : list string) (xn : list Z) (bars : registry)
  : list Z * registry :=
  match xlabels with
  | [] => (xn, bars)
  | el :: rest =>
      match dict_get bars el with
      | Some p => update_bars_loop rest (xn ++ [p]) bars
      | None =>
          let i := dict_len bars + 1 in
          update_bars_loop rest (xn ++ [i]) (dict_update bars el i)
      end
  end.

Definition update_bars (x : list value) (bars : registry) (offset : Py.num)
  : result (list value * list string * bool * registry) :=
  let labelled := existsb is_str x in
  if negb labelled then
    xlabels <- get_labels x "linear" ;;
    Ok (x, xlabels, labelled, bars)
  else
    let xlabels := map str x in
    let '(xn, bars') := update_bars_loop xlabels [] bars in
    let x' := match xlabels with
              | [] => x
              | _ :: _ => map (fun p => Num (Py.Int p)) xn
              end in
    Ok (x', xlabels, labelled, bars').

(** Limits of a series along the bar heights; [None] is a missing value. *)
Fixpoint drop_none (y : list (option Py.num)) : list Py.num :=
  match y with
  | [] => []
  | None :: y' => drop_none y'
  | Some el :: y' => el :: drop_none y'
  end.

Definition min_default (y : list Py.num) : option Py.num :=
  match y with
  | [] => None
  | a :: y' => Some (Py.min_from a y')
  end.

Definition max_default (y : list Py.num) : option Py.num :=
  match y with
  | [] => None
  | a :: y' => Some (Py.max_from a y')
  end.

Definition update_bar_xlim (y : list (option Py.num))
  : option Py.num * option Py.num :=
  let y := drop_none y in
  (min_default y, max_default y).

Definition update_bar_ylim (y : list (option Py.num))
  : result (option Py.num * option Py.num) :=
  match update_bar_xlim y with
  | (Some lo, Some hi) =>
      d <- Py.sub hi lo ;;
      delta <- Py.truediv d (Py.Int 20) ;;
      shrunk <- Py.sub lo delta ;;
      if Py.gtb shrunk (Py.Int 0) then
        lo' <- Py.sub lo delta ;;
        Ok (Some lo', Some hi)
      else Ok (Some lo, Some hi)
  | bar_lim => Ok bar_lim
  end.

(** [(max(x) - min(x)) / (bins - 1) * width / 2] *)
Definition bin_size_half (x : list Py.num) (width : Py.num) : result Py.num :=
  let bins := Z.of_nat (length x) in
  M <- Py.max x ;;
  m <- Py.min x ;;
  d <- Py.sub M m ;;
  q <- Py.truediv d (Py.Int (bins - 1)) ;;
  p <- Py.mul q width ;;
  Py.truediv p (Py.Int 2).

Definition polygon : Type := list Py.num.

Fixpoint bars_loop (x y : list Py.num) (minimum h : Py.num) (range : list nat)
  (xbar ybar : list polygon) : result (list polygon * list polygon) :=
  match range with
  | [] => Ok (xbar, ybar)
  | i :: range' =>
      let left := (xi <- getitem x i ;; Py.sub xi h) in
      let right := (xi <- getitem x i ;; Py.add xi h) in
      x0 <- left ;; x1 <- left ;; x2 <- right ;; x3 <- right ;; x4 <- left ;;
      y1 <- getitem y i ;; y2 <- getitem y i ;;
      bars_loop x y minimum h range'
        (xbar ++ [[x0; x1; x2; x3; x4]])
        (ybar ++ [[minimum; y1; y2; minimum; minimum]])
  end.

Definition bars (x y : list Py.num) (width minimum : Py.num)
  : result (list polygon * list polygon) :=
  match x with
  | [] => Ok ([], [])
  | _ :: _ =>
      let bins := length x in
      h <- bin_size_half x width ;;
      bars_loop x y minimum h (seq 0 bins) [] []
  end.

(** ** Hist functions *)

Section Division.

(** The division used by the normalisation; [hist_data] below takes
    Python's [/] for it. *)
Variable div : Py.num -> Py.num -> result Py.num.

Definition normalise (m M : Py.num) (bins : Z) (el : Py.num) : result Py.num :=
  if Py.neb el M then
    a <- Py.sub el m ;;
    b <- Py.sub M m ;;
    q <- div a b ;;
    Py.mul q (Py.Int bins)
  else Py.sub (Py.Int bins) (Py.Int 1).

Fixpoint count (data : list Z) (histy : list Z) : result (list Z) :=
  match data with
  | [] => Ok histy
  | el :: data' => histy' <- increment histy el ;; count data' histy'
  end.

Definition hist_data_with (data : list Py.num) (bins : Z)
  : result (list Py.num * list Z) :=
  match data with
  | [] => Ok ([], [])
  | _ :: _ =>
      m <- Py.min data ;;
      M <- Py.max data ;;
      data1 <- comprehension (normalise m M bins) data ;;
      data2 <- comprehension Py.int data1 ;;
      histx <- linspace m M bins ;;
      let histy := repeat 0 (Z.to_nat bins) in
      histy' <- count data2 histy ;;
      Ok (histx, histy')
  end.

End Division.

Definition hist_data (data : list Py.num) (bins : Z)
  : result (list Py.num * list Z) :=
  hist_data_with Py.truediv data bins.

End Bar.

(** Modelled from the spec: [linspace] lives in [plotext/_utility/data.py],
    which is not part of the sources at hand.  Bucket positions are [bins]
    evenly spaced values between the lower and the upper bound inclusive
    (linear spacing); a single bucket sits on the lower bound. *)
Definition linspace_step (lower upper : Py.num) (length : Z) : result Py.num :=
  if 1 <? length then
    d <- Py.sub upper lower ;; Py.truediv d (Py.Int (length - 1))
  else Ok (Py.Int 0).

Definition linspace_model (lower upper : Py.num) (length : Z)
  : result (list Py.num) :=
  slope <- linspace_step lower upper length ;;
  comprehension
    (fun i => t <- Py.mul (Py.Int (Z.of_nat i)) slope ;; Py.add lower t)
    (seq 0 (Z.to_nat length)).

(** The place that [l[i]] addresses in a list of [len] elements, if any:
    a negative index counts from the end. *)
Definition bucket (len : nat) (i : Z) : option nat :=
  let j := if i <? 0 then i + Z.of_nat len else i in
  if (j <? 0) || (Z.of_nat len <=? j) then None else Some (Z.to_nat j).

(** ** The command line ([plotext_cli.py]) *)

(** *** Printing *)

(** An argument of a call of [print], and the calls made so far. *)
Inductive item : Type :=
| Text (s : string)
| Number (z : Z)
| Error (e : exn).

Definition printed : Type := list (list item).

(** A computation that prints and then returns or raises. *)
Definition io (A : Type) : Type := (printed * result A)%type.

Definition io_bind {A B : Type} (c : io A) (k : A -> io B) : io B :=
  match c with
  | (out, Ok a) => let '(out', r) := k a in (out ++ out', r)
  | (out, Raise e) => (out, Raise e)
  end.

(** [list(map(f, l))] for an [f] that may print. *)
Fixpoint io_comprehension {A B : Type} (f : A -> io B) (l : list A)
  : io (list B) :=
  match l with
  | [] => ([], Ok [])
  | a :: l' =>
      io_bind (f a) (fun b =>
      io_bind (io_comprehension f l') (fun bs => ([], Ok (b :: bs))))
  end.

(** *** Strings and lists *)

(** [s.split(sep)] for a separator of one character. *)
Fixpoint split_on (sep : ascii) (s : string) : list string :=
  match s with
  | EmptyString => [EmptyString]
  | String c s' =>
      if Ascii.eqb c sep then EmptyString :: split_on sep s'
      else match split_on sep s' with
           | [] => [String c EmptyString]
           | field :: fields => String c field :: fields
           end
  end.

(** [l[i]] for any integer index. *)
Definition getitem_z {A : Type} (l : list A) (i : Z) : result A :=
  match bucket (List.length l) i with
  | Some j => getitem l j
  | None => Raise IndexError
  end.

(** *** Dictionaries keyed by column index *)

Definition table (V : Type) : Type := list (Z * V).

Fixpoint tbl_get {V : Type} (d : table V) (k : Z) : option V :=
  match d with
  | [] => None
  | (k', v) :: d' => if Z.eqb k k' then Some v else tbl_get d' k
  end.

(** [d[k] = v] *)
Fixpoint tbl_set {V : Type} (d : table V) (k : Z) (v : V) : table V :=
  match d with
  | [] => [(k, v)]
  | (k', v') :: d' =>
      if Z.eqb k k' then (k, v) :: d' else (k', v') :: tbl_set d' k v
  end.

(** [d[k]] in a [defaultdict(list)]: a missing column reads as empty. *)
Definition tbl_default {A : Type} (d : table (list A)) (k : Z) : list A :=
  match tbl_get d k with
  | Some v => v
  | None => []
  end.

(** A cell of a column: the text read, or the float it was converted to. *)
Inductive cell : Type :=
| Field (s : string)
| Parsed (f : Py.float).

Definition columns_message : string := " 
        Cannot understand the pair of columns you want to print.
        Columns are identified by numbers starting from 1. Each pair
        of columns is identified by two numbers separated by a comma
        without a space 1,2 1,5 6,4


".

Definition size_message : string := " 
        Cannot understand the size of the plot. Please pass a pair of integers separated by a comma
        without a space: 100,30


".

Section Cli.

(** [int(s)], [float(s)] and [s.split(sep=delimiter)] on strings are
    built-ins of the language, and so is the order in which a set of
    integers is iterated. *)
Variable int_of_str : string -> result Z.
Variable float_of_str : string -> result Py.float.
Variable str_split : string -> option string -> result (list string).
Variable set_iter : list Z -> list Z.

Definition _column (x : string) : result (list Z) :=
  i <- int_of_str x ;; Ok [i - 1].

(** [a, b = map(int, parts)]: the iterator is asked for a third element
    to make sure that there is none. *)
Definition unpack_pair (parts : list string) : result (Z * Z) :=
  match parts with
  | [] => Raise ValueError
  | p0 :: parts0 =>
      a <- int_of_str p0 ;;
      match parts0 with
      | [] => Raise ValueError
      | p1 :: parts1 =>
          b <- int_of_str p1 ;;
          match parts1 with
          | [] => Ok (a, b)
          | p2 :: _ => _ <- int_of_str p2 ;; Raise ValueError
          end
      end
  end.

Definition _split_columns (x : string) : io (Z * Z) :=
  match (ab <- unpack_pair (split_on "," x) ;; Ok (fst ab - 1, snd ab - 1)) with
  | Raise ValueError =>
      ([[Text columns_message; Error ValueError]], Raise ValueError)
  | r => ([], r)
  end.

(** A text that [_split_columns] accepts as the pair [ab]. *)
Definition accepted (x : string) (ab : Z * Z) : Prop :=
  _split_columns x = ([], Ok ab).

Definition _plot_size (x : string) : io (Z * Z) :=
  match (ab <- unpack_pair (split_on "," x) ;; Ok (fst ab, snd ab)) with
  | Raise ValueError =>
      ([[Text size_message; Error ValueError]], Raise ValueError)
  | r => ([], r)
  end.

(** The columns of the arguments after parsing: tuples of indices. *)
Definition _parser_call_back (plot : string) (columns : list string)
  : io (list (list Z)) :=
  if String.eqb plot "hist" then
    ([], comprehension _column columns)
  else
    io_comprehension
      (fun x => io_bind (_split_columns x) (fun ab => ([], Ok [fst ab; snd ab])))
      columns.

Definition to_float_cell (c : cell) : result Py.float :=
  match c with
  | Field s => float_of_str s
  | Parsed f => Ok f
  end.

(** [list(map(float, v))] *)
Definition convert (v : list cell) : result (list cell) :=
  fs <- comprehension to_float_cell v ;; Ok (map Parsed fs).

(** An entry and its converted form. *)
Definition converted (entry entry' : Z * list cell) : Prop :=
  fst entry = fst entry' /\ convert (snd entry) = Ok (snd entry').

(** The loop of [_post_process_all_floats] over the items of the
    dictionary, which it updates in place. *)
Fixpoint _post_process_all_floats_loop (plot_type : string)
  (items : table (list cell)) (columns : table (list cell))
  : table (list cell) * io unit :=
  match items with
  | [] => (columns, ([], Ok tt))
  | (k, v) :: items' =>
      match convert v with
      | Ok v' =>
          _post_process_all_floats_loop plot_type items' (tbl_set columns k v')
      | Raise ValueError =>
          (columns,
           ([[Text "All elements of a"; Text plot_type;
              Text "plot must numbers."];
             [Text "Cannot convert elements of column"; Number (k + 1);
              Text "to float.

"]],
            Raise ValueError))
      | Raise e => (columns, ([], Raise e))
      end
  end.

(** The dictionary as the call leaves it, what was printed, and the
    outcome (on success the dictionary itself is returned). *)
Definition _post_process_all_floats (columns : table (list cell))
  (plot_type : string) : table (list cell) * io unit :=
  _post_process_all_floats_loop plot_type columns columns.

Fixpoint _post_process_bar_loop (idx : list Z) (columns : table (list cell))
  : table (list cell) * io unit :=
  match idx with
  | [] => (columns, ([], Ok tt))
  | i :: idx' =>
      match convert (tbl_default columns i) with
      | Ok v' => _post_process_bar_loop idx' (tbl_set columns i v')
      | Raise ValueError =>
          (columns,
           ([[Text "In a bar plot, elements on the y-axis must be numbers."];
             [Text "Cannot convert elements of column"; Number (i + 1);
              Text "to float.

"]],
            Raise ValueError))
      | Raise e => (columns, ([], Raise e))
      end
  end.

Definition _post_process_bar (columns : table (list cell))
  (pairs : list (Z * Z)) : table (list cell) * io unit :=
  _post_process_bar_loop (set_iter (map snd pairs)) columns.

(** The inner loop of [_get_data_from]: [d[i].append(line[i])] for the
    selected indices.  The dictionary is local to the call: when reading
    [line[i]] raises, the entry that [d[i]] had just created is lost with
    it. *)
Fixpoint append_fields (fields : list string) (idx : list Z)
  (d : table (list cell)) : result (table (list cell)) :=
  match idx with
  | [] => Ok d
  | i :: idx' =>
      v <- getitem_z fields i ;;
      append_fields fields idx' (tbl_set d i (tbl_default d i ++ [Field v]))
  end.

Fixpoint read_lines (delimiter : option string) (idx : list Z)
  (lines : list string) (d : table (list cell))
  : result (table (list cell)) :=
  match lines with
  | [] => Ok d
  | line :: lines' =>
      fields <- str_split line delimiter ;;
      d' <- append_fields fields idx d ;;
      read_lines delimiter idx lines' d'
  end.

(** [file_descriptor] is given by the lines that iterating it yields. *)
Definition _get_data_from (file_descriptor : list string)
  (columns : list (list Z)) (delimiter : option string)
  : result (table (list cell)) :=
  let idx := set_iter (concat columns) in
  read_lines delimiter idx file_descriptor [].

(** The cell that the line contributes to the column of index [i]. *)
Definition cell_of (delimiter : option string) (i : Z) (line : string)
  (c : cell) : Prop :=
  exists fields v,
    str_split line delimiter = Ok fields /\
    getitem_z fields i = Ok v /\ c = Field v.

End Cli.

(** *** Instances of the built-ins for the examples *)

(** A reading of plain decimal numerals, for the examples: a part of what
    [int] accepts. *)
Definition digit_value (c : ascii) : option Z :=
  let n := Z.of_N (N_of_ascii c) in
  if (48 <=? n) && (n <=? 57) then Some (n - 48) else None.

Fixpoint decimal_from (acc : Z) (s : string) : result Z :=
  match s with
  | EmptyString => Ok acc
  | String c s' =>
      match digit_value c with
      | Some d => decimal_from (10 * acc + d) s'
      | None => Raise ValueError
      end
  end.

Definition decimal (s : string) : result Z :=
  match s with
  | EmptyString => Raise ValueError
  | _ => decimal_from 0 s
  end.

(** For the examples: lines split at commas, whatever the delimiter, and
    a set iterated in the order of the last occurrences. *)
Definition split_commas (line : string) (delimiter : option string)
  : result (list string) :=
  Ok (split_on "," line).

Definition set_order (l : list Z) : list Z := nodup Z.eq_dec l.

(** For the examples: the floats of the decimal numerals. *)
Definition decimal_float (s : string) : result Py.float :=
  z <- decimal s ;; Py.float_of_int z.

(** ** Specification vocabulary *)

(** The labels of [labels] that are not in [seen], each once, in the order
    in which they first occur. *)
Fixpoint first_seen (seen labels : list string) : list string :=
  match labels with
  | [] => []
  | l :: rest =>
      if existsb (String.eqb l) seen then first_seen seen rest
      else l :: first_seen (seen ++ [l]) rest
  end.

(** The [n] consecutive positions [start], [start + 1], ... *)
Definition positions_from (start n : nat) : list Z :=
  map Z.of_nat (seq start n).

(** A registry in which the k-th name inserted sits at position k:
    positions are 1..size, without gaps or duplicates, and no name
    occurs twice. *)
Definition registry_ok (bars : registry) : Prop :=
  NoDup (map fst bars) /\
  map snd bars = positions_from 1 (List.length bars).

(** The registry after resolving [labels]: the names not yet known are
    appended in first-seen order, numbered from the old size plus one. *)
Definition resolved_registry (bars : registry) (labels : list string)
  : registry :=
  let fresh := first_seen (map fst bars) labels in
  bars ++ combine fresh
            (positions_from (S (List.length bars)) (List.length fresh)).

(** The x polygon of a bar centred on [xi] with half-width [h], and the
    y polygon of a bar of height [yi] standing on [minimum]. *)
Definition bar_x (h xi : Py.num) : result polygon :=
  l <- Py.sub xi h ;; r <- Py.add xi h ;; Ok [l; l; r; r; l].

Definition bar_y (minimum yi : Py.num) : polygon :=
  [minimum; yi; yi; minimum; minimum].

(** The two polygons of the bar at index [i]. *)
Definition bar_at (x y : list Py.num) (minimum h : Py.num) (i : nat)
  : result (polygon * polygon) :=
  xi <- getitem x i ;;
  px <- bar_x h xi ;;
  yi <- getitem y i ;;
  Ok (px, bar_y minimum yi).

(** The corners of a polygon: its x and y sequences paired up. *)
Definition corners (px py : polygon) : list (Py.num * Py.num) :=
  combine px py.

(** Samples that are all equal to one another under [==]. *)
Definition all_equal (data : list Py.num) : Prop :=
  forall u v, In u data -> In v data -> Py.eqb u v = true.

(** The total of a list of counts. *)
Definition total (counts : list Z) : Z := fold_right Z.add 0 counts.

(** The margin that [update_bar_ylim] takes off the lower limit. *)
Definition margin (lo hi : Py.num) : result Py.num :=
  d <- Py.sub hi lo ;; Py.truediv d (Py.Int 20).

(** Numbers other than the infinities and NaN. *)
Definition is_finite (a : Py.num) : bool :=
  match a with
  | Py.Int _ => true
  | Py.Float (S754_zero _) => true
  | Py.Float (S754_finite _ _ _) => true
  | Py.Float _ => false
  end.

(** How many of the indices address the place [j]. *)
Definition hits (len : nat) (indices : list Z) (j : nat) : Z :=
  Z.of_nat
    (List.length
       (filter (fun i => match bucket len i with
                         | Some k => Nat.eqb k j
                         | None => false
                         end) indices)).

(** The indices that [hist_data] counts: the normalised samples, truncated. *)
Definition hist_indices (data : list Py.num) (bins : Z) : result (list Z) :=
  m <- Py.min data ;;
  M <- Py.max data ;;
  data1 <- comprehension (normalise Py.truediv m M bins) data ;;
  comprehension Py.int data1.

(** How often the character [c] occurs in [s]. *)
Fixpoint count_char (c : ascii) (s : string) : nat :=
  match s with
  | EmptyString => 0
  | String c' s' => (if Ascii.eqb c' c then 1 else 0) + count_char c s'
  end.

(** Numbers that are floats. *)
Definition is_float (a : Py.num) : bool :=
  match a with
  | Py.Float _ => true
  | Py.Int _ => false
  end.

(** Equality of all the members of an explicit list, member by member. *)
Ltac all_equal_by_cases :=
  let u := fresh "u" in
  let v := fresh "v" in
  let Hu := fresh "Hu" in
  let Hv := fresh "Hv" in
  intros u v Hu Hv; simpl in Hu, Hv;
  repeat (destruct Hu as [Hu|Hu]; [subst u|]); try contradiction;
  repeat (destruct Hv as [Hv|Hv]; [subst v|]); try contradiction;
  reflexivity.

(** ** Facts about binary64 literals *)

(** The doubles written [0.4], [0.6] and [1.4]: mantissa and exponent, as
    [float.hex] shows them ([0x1.999999999999ap-2], [0x1.3333333333333p-1],
    [0x1.6666666666666p+0]). *)
Example lit_0_4 : Py.lit 4 10 = S754_finite false 7205759403792794 (-54).
Proof. vm_compute. reflexivity. Qed.

Example lit_0_6 : Py.lit 6 10 = S754_finite false 5404319552844595 (-53).
Proof. vm_compute. reflexivity. Qed.

Example lit_1_4 : Py.lit 14 10 = S754_finite false 6305039478318694 (-52).
Proof. vm_compute. reflexivity. Qed.

(** [(2 ** 54 - 1) / 2 ** 54] is [1.0], and [0 / -5] is [-0.0]. *)
Example int_truediv_rounds_to_one :
  Py.int_truediv (2 ^ 54 - 1) (2 ^ 54) = Ok (Py.lit 1 1).
Proof. vm_compute. reflexivity. Qed.

Example int_truediv_negative_zero :
  Py.int_truediv 0 (-5) = Ok (S754_zero true).
Proof. reflexivity. Qed.

(** ** Facts about the error monad and the containers *)

Lemma comprehension_ext_in {A B : Type} (f g : A -> result B) (l : list A) :
  (forall a, In a l -> f a = g a) ->
  comprehension f l = comprehension g l.
Proof.
  induction l as [|a l IH]; intros H; simpl; [reflexivity|].
  rewrite (H a (or_introl eq_refl)), IH; [reflexivity|].
  intros a' Ha'. apply H. now right.
Qed.

Lemma comprehension_map {A B C : Type} (f : B -> result C) (g : A -> B)
  (l : list A) :
  comprehension f (map g l) = comprehension (fun a => f (g a)) l.
Proof.
  induction l as [|a l IH]; simpl; [reflexivity|]. now rewrite IH.
Qed.

Lemma comprehension_Forall2 {A B : Type} (f : A -> result B) (l : list A)
  (bs : list B) :
  comprehension f l = Ok bs -> Forall2 (fun a b => f a = Ok b) l bs.
Proof.
  revert bs. induction l as [|a l IH]; simpl; intros bs H.
  - inversion H. constructor.
  - destruct (f a) as [b|e] eqn:Hf; simpl in H; [|discriminate].
    destruct (comprehension f l) as [bs'|e] eqn:Hc; simpl in H; [|discriminate].
    inversion H; subst. constructor; auto.
Qed.

Lemma comprehension_pure {A B : Type} (f : A -> result B) (g : A -> B)
  (l : list A) :
  (forall a, In a l -> f a = Ok (g a)) ->
  comprehension f l = Ok (map g l).
Proof.
  induction l as [|a l IH]; intros H; simpl; [reflexivity|].
  rewrite (H a (or_introl eq_refl)); simpl.
  rewrite IH; [reflexivity|]. intros a' Ha'. apply H. now right.
Qed.

Lemma dict_get_app_some {V : Type} (d d' : dict V) (k : string) (v : V) :
  dict_get d k = Some v -> dict_get (d ++ d') k = Some v.
Proof.
  induction d as [|[k' v'] d IH]; simpl; [discriminate|].
  destruct (String.eqb k k'); auto.
Qed.

Lemma dict_get_app_none {V : Type} (d d' : dict V) (k : string) :
  dict_get d k = None -> dict_get (d ++ d') k = dict_get d' k.
Proof.
  induction d as [|[k' v'] d IH]; simpl; [reflexivity|].
  destruct (String.eqb k k'); [discriminate|auto].
Qed.

Lemma dict_update_fresh {V : Type} (d : dict V) (k : string) (v : V) :
  dict_get d k = None -> dict_update d k v = d ++ [(k, v)].
Proof.
  induction d as [|[k' v'] d IH]; simpl; [reflexivity|].
  destruct (String.eqb k k'); [discriminate|].
  intros H. now rewrite IH.
Qed.

Lemma dict_get_keys {V : Type} (d : dict V) (k : string) :
  existsb (String.eqb k) (map fst d) =
  match dict_get d k with Some _ => true | None => false end.
Proof.
  induction d as [|[k' v'] d IH]; simpl; [reflexivity|].
  destruct (String.eqb k k'); simpl; auto.
Qed.

Lemma dict_get_none_keys {V : Type} (d : dict V) (k : string) :
  dict_get d k = None <-> ~ In k (map fst d).
Proof.
  induction d as [|[k' v'] d IH]; simpl; [tauto|].
  destruct (String.eqb_spec k k') as [->|Hne].
  - split; [discriminate|]. intros H. exfalso. apply H. now left.
  - rewrite IH. split; [|tauto]. intros H [Heq|Hin]; [congruence|tauto].
Qed.

Lemma existsb_eqb_In (k : string) (l : list string) :
  existsb (String.eqb k) l = true <-> In k l.
Proof.
  rewrite existsb_exists. split.
  - intros [k' [Hin Heq]]. apply String.eqb_eq in Heq. now subst.
  - intros Hin. exists k. split; [assumption|apply String.eqb_refl].
Qed.

(** *** [first_seen] *)

Lemma first_seen_not_seen (labels seen : list string) (l : string) :
  In l (first_seen seen labels) -> ~ In l seen.
Proof.
  revert seen. induction labels as [|a rest IH]; simpl; intros seen; [tauto|].
  destruct (existsb (String.eqb a) seen) eqn:Hex.
  - apply IH.
  - intros [->|Hin].
    + intros Hin. apply existsb_eqb_In in Hin. congruence.
    + intros Hs. apply (IH _ Hin). apply in_or_app. now left.
Qed.

Lemma first_seen_NoDup (labels seen : list string) :
  NoDup (first_seen seen labels).
Proof.
  revert seen. induction labels as [|a rest IH]; simpl; intros seen.
  - constructor.
  - destruct (existsb (String.eqb a) seen); [apply IH|].
    constructor; [|apply IH].
    intros Hin. apply first_seen_not_seen in Hin. apply Hin.
    apply in_or_app. right. now left.
Qed.

Lemma first_seen_complete (labels seen : list string) (l : string) :
  In l labels -> ~ In l seen -> In l (first_seen seen labels).
Proof.
  revert seen. induction labels as [|a rest IH]; simpl; intros seen; [tauto|].
  intros [->|Hin] Hs.
  - destruct (existsb (String.eqb l) seen) eqn:Hex.
    + apply existsb_eqb_In in Hex. tauto.
    + now left.
  - destruct (existsb (String.eqb a) seen) eqn:Hex; [now apply IH|].
    destruct (String.eqb_spec l a) as [->|Hne]; [now left|].
    right. apply IH; [assumption|].
    intros Hin'. apply in_app_or in Hin'. destruct Hin' as [H|[H|[]]]; congruence.
Qed.

Lemma positions_from_length (start n : nat) :
  List.length (positions_from start n) = n.
Proof. unfold positions_from. now rewrite length_map, length_seq. Qed.

Lemma positions_from_S (start n : nat) :
  positions_from start (S n) = Z.of_nat start :: positions_from (S start) n.
Proof. reflexivity. Qed.

Lemma positions_from_app (start n k : nat) :
  positions_from start n ++ positions_from (start + n) k =
  positions_from start (n + k).
Proof. unfold positions_from. now rewrite <- map_app, <- seq_app. Qed.

Lemma positions_from_nth (start n k : nat) :
  (k < n)%nat ->
  nth_error (positions_from start n) k = Some (Z.of_nat (start + k)).
Proof.
  intros Hk. unfold positions_from.
  rewrite nth_error_map, nth_error_seq.
  destruct (Nat.ltb_spec k n); [reflexivity|lia].
Qed.

(** Looking a name up in freshly numbered entries. *)
Lemma dict_get_combine (keys : list string) (vals : list Z) (k : nat)
  (l : string) (v : Z) :
  NoDup keys ->
  nth_error keys k = Some l -> nth_error vals k = Some v ->
  dict_get (combine keys vals) l = Some v.
Proof.
  revert vals k. induction keys as [|a keys IH]; intros vals k Hnd Hk Hv.
  - destruct k; discriminate.
  - destruct vals as [|w vals]; [destruct k; discriminate|].
    inversion Hnd as [|? ? Hnotin Hnd']; subst. simpl.
    destruct k as [|k]; simpl in Hk, Hv.
    + inversion Hk; inversion Hv; subst. now rewrite String.eqb_refl.
    + destruct (String.eqb_spec l a) as [->|Hne].
      * exfalso. apply Hnotin. eapply nth_error_In; eauto.
      * eapply IH; eauto.
Qed.

(** ** The label resolver *)

Section Resolver.

Variable float_repr : Py.float -> string.
Variable get_labels : list value -> string -> result (list string).

Lemma update_bars_loop_spec (labels : list string) :
  forall (xn : list Z) (bars : registry),
  exists ps,
    update_bars_loop labels xn bars = (xn ++ ps, resolved_registry bars labels)
    /\ Forall2 (fun l p => dict_get (resolved_registry bars labels) l = Some p)
         labels ps.
Proof.
  unfold resolved_registry.
  induction labels as [|el rest IH]; intros xn bars; simpl.
  - exists []. rewrite !app_nil_r. split; [reflexivity|constructor].
  - rewrite dict_get_keys.
    destruct (dict_get bars el) as [p|] eqn:Hget.
    + destruct (IH (xn ++ [p]) bars) as [ps [Hloop Hall]].
      exists (p :: ps). rewrite Hloop, <- app_assoc. split; [reflexivity|].
      constructor; [|assumption]. now apply dict_get_app_some.
    + rewrite (dict_update_fresh _ _ _ Hget).
      destruct (IH (xn ++ [dict_len bars + 1]) (bars ++ [(el, dict_len bars + 1)]))
        as [ps [Hloop Hall]].
      rewrite map_app, length_app in Hloop, Hall. simpl in Hloop, Hall.
      rewrite Nat.add_1_r in Hloop, Hall.
      repeat rewrite <- app_assoc in Hloop. repeat rewrite <- app_assoc in Hall.
      cbn [app] in Hloop, Hall.
      assert (Hpos : dict_len bars + 1 = Z.of_nat (S (List.length bars)))
        by (unfold dict_len; lia).
      exists ((dict_len bars + 1) :: ps).
      change (List.length (el :: first_seen (map fst bars ++ [el]) rest))
        with (S (List.length (first_seen (map fst bars ++ [el]) rest))).
      rewrite positions_from_S, <- Hpos. cbn [combine].
      rewrite Hloop. split; [reflexivity|].
      constructor; [|assumption].
      rewrite (dict_get_app_none _ _ _ Hget). simpl. now rewrite String.eqb_refl.
Qed.

Lemma resolved_registry_keeps (bars : registry) (labels : list string)
  (l : string) (p : Z) :
  dict_get bars l = Some p ->
  dict_get (resolved_registry bars labels) l = Some p.
Proof. apply dict_get_app_some. Qed.

Lemma resolved_registry_new (bars : registry) (labels : list string)
  (l : string) :
  dict_get bars l = None -> In l labels ->
  exists k,
    nth_error (first_seen (map fst bars) labels) k = Some l /\
    dict_get (resolved_registry bars labels) l
    = Some (dict_len bars + Z.of_nat k + 1).
Proof.
  intros Hget Hin.
  assert (Hfresh : In l (first_seen (map fst bars) labels)).
  { apply first_seen_complete; [assumption|]. now apply dict_get_none_keys. }
  destruct (In_nth_error _ _ Hfresh) as [k Hk].
  exists k. split; [assumption|].
  unfold resolved_registry. rewrite (dict_get_app_none _ _ _ Hget).
  assert (Hlt : (k < List.length (first_seen (map fst bars) labels))%nat).
  { apply nth_error_Some. congruence. }
  eapply dict_get_combine; [apply first_seen_NoDup|eassumption|].
  rewrite positions_from_nth by assumption.
  f_equal. unfold dict_len. lia.
Qed.

Lemma resolved_registry_ok (bars : registry) (labels : list string) :
  registry_ok bars -> registry_ok (resolved_registry bars labels).
Proof.
  intros [Hnd Hpos]. unfold resolved_registry.
  set (fresh := first_seen (map fst bars) labels).
  assert (Hlen : List.length fresh
                 = List.length (positions_from (S (List.length bars))
                                  (List.length fresh)))
    by now rewrite positions_from_length.
  split.
  - rewrite map_app.
    assert (Hfst : map fst (combine fresh (positions_from (S (List.length bars))
                                            (List.length fresh))) = fresh).
    { generalize dependent (positions_from (S (List.length bars)) (List.length fresh)).
      induction fresh as [|a fr IHf]; intros [|v vs] Hl; simpl in *;
        try reflexivity; try discriminate.
      f_equal. apply IHf. now inversion Hl. }
    rewrite Hfst.
    apply NoDup_app; [assumption|apply first_seen_NoDup|].
    intros a Ha Hb. now apply first_seen_not_seen in Hb.
  - rewrite map_app, Hpos.
    assert (Hsnd : forall (ks : list string) (vs : list Z),
               List.length ks = List.length vs -> map snd (combine ks vs) = vs).
    { induction ks as [|a ks IHk]; intros [|v vs] Hl; simpl in *;
        try reflexivity; try discriminate.
      f_equal. apply IHk. now inversion Hl. }
    rewrite Hsnd by assumption.
    rewrite length_app, length_combine, <- Hlen, Nat.min_id.
    change (S (List.length bars)) with (1 + List.length bars)%nat.
    apply positions_from_app.
Qed.

Lemma registry_ok_empty : registry_ok [].
Proof. split; [constructor|reflexivity]. Qed.

(** C1. On a labelled batch, [update_bars] resolves every label to the
    position the returned registry holds for it; a name the registry
    already knew keeps its stored position, a name it did not know is
    given the size of the registry just before its insertion plus one
    (the old size plus the number of new names seen before it, plus one);
    a registry whose positions are 1..size in first-seen order, without
    gaps or duplicates, stays such a registry. *)
Theorem update_bars_registry (x : list value) (bars : registry)
  (offset : Py.num) :
  existsb is_str x = true ->
  let labels := map (str float_repr) x in
  let bars' := resolved_registry bars labels in
  exists xn : list Z,
    update_bars float_repr get_labels x bars offset
    = Ok (map (fun p => Num (Py.Int p)) xn, labels, true, bars')
    /\ Forall2 (fun l p => dict_get bars' l = Some p) labels xn
    /\ (forall l p, dict_get bars l = Some p -> dict_get bars' l = Some p)
    /\ (forall l, dict_get bars l = None -> In l labels ->
        exists k,
          nth_error (first_seen (map fst bars) labels) k = Some l /\
          dict_get bars' l = Some (dict_len bars + Z.of_nat k + 1))
    /\ (registry_ok bars -> registry_ok bars').
Proof.
  intros Hlab labels bars'.
  destruct (update_bars_loop_spec labels [] bars) as [ps [Hloop Hall]].
  exists ps. unfold update_bars. rewrite Hlab. cbn [negb].
  fold labels. rewrite Hloop. cbn [app].
  assert (Hne : labels <> []).
  { unfold labels. destruct x; [discriminate|]. discriminate. }
  destruct labels as [|l0 ls] eqn:Hl; [congruence|].
  split; [reflexivity|]. split; [assumption|].
  split; [intros l p; apply resolved_registry_keeps|].
  split; [intros l; apply resolved_registry_new|].
  apply resolved_registry_ok.
Qed.

(** C2. When no element of [x] is a string, [update_bars] returns the
    input values as coordinates, reports the series as not labelled and
    hands the registry back unchanged; the labels are those of
    [get_labels]. *)
Theorem update_bars_numeric_passthrough (x : list value) (bars : registry)
  (offset : Py.num) (xlabels : list string) :
  Forall (fun el => is_str el = false) x ->
  get_labels x "linear" = Ok xlabels ->
  update_bars float_repr get_labels x bars offset
  = Ok (x, xlabels, false, bars).
Proof.
  intros Hnum Hlabels. unfold update_bars.
  assert (Hex : existsb is_str x = false).
  { apply not_true_is_false. intros Hex.
    apply existsb_exists in Hex. destruct Hex as [el [Hin Hstr]].
    rewrite Forall_forall in Hnum. specialize (Hnum el Hin). congruence. }
  rewrite Hex. cbn [negb]. now rewrite Hlabels.
Qed.

End Resolver.

(** Resolving [["a", "b", "a", "c"]] against an empty registry. *)
Example update_bars_scenario float_repr get_labels offset :
  update_bars float_repr get_labels
    [Str "a"; Str "b"; Str "a"; Str "c"] [] offset
  = Ok ([Num (Py.Int 1); Num (Py.Int 2); Num (Py.Int 1); Num (Py.Int 3)],
        ["a"; "b"; "a"; "c"]%string, true,
        [("a", 1); ("b", 2); ("c", 3)]%string).
Proof. reflexivity. Qed.

Lemma update_bars_registry_witness :
  let x := [Str "a"; Num (Py.Int 7); Str "a"; Str "c"] in
  let bars := [("c"%string, 1)] in
  let float_repr := fun _ : Py.float => "nan"%string in
  let get_labels := fun (_ : list value) (_ : string) =>
                      Raise (A := list string) TypeError in
  existsb is_str x = true /\
  exists xn,
    update_bars float_repr get_labels x bars (Py.Int 0)
    = Ok (map (fun p => Num (Py.Int p)) xn, map (str float_repr) x, true,
          resolved_registry bars (map (str float_repr) x)).
Proof.
  intros x bars float_repr get_labels.
  assert (Hlab : existsb is_str x = true) by reflexivity.
  split; [exact Hlab|].
  destruct (update_bars_registry float_repr get_labels x bars (Py.Int 0) Hlab)
    as [xn [Hres _]].
  exists xn. exact Hres.
Defined.

Lemma update_bars_numeric_passthrough_witness :
  let x := [Num (Py.Int 5); Num (Py.Int 7)] in
  let bars := [("c"%string, 1)] in
  let float_repr := fun _ : Py.float => "nan"%string in
  let get_labels := fun (x : list value) (_ : string) =>
                      Ok (map (str float_repr) x) in
  update_bars float_repr get_labels x bars (Py.Int 0)
  = Ok (x, ["5"; "7"]%string, false, bars).
Proof.
  intros x bars float_repr get_labels.
  apply (update_bars_numeric_passthrough float_repr get_labels x bars
           (Py.Int 0) ["5"; "7"]%string).
  - repeat constructor.
  - reflexivity.
Defined.

(** ** The bar geometry generator *)

Lemma comprehension_length {A B : Type} (f : A -> result B) (l : list A)
  (bs : list B) :
  comprehension f l = Ok bs -> List.length bs = List.length l.
Proof.
  intros H. apply comprehension_Forall2 in H.
  symmetry. eapply Forall2_length; eauto.
Qed.

Lemma comprehension_shift {B : Type} (f : nat -> result B) (s n : nat) :
  comprehension f (seq (S s) n) = comprehension (fun i => f (S i)) (seq s n).
Proof. now rewrite <- seq_shift, comprehension_map. Qed.

(** The loop of [bars] builds, bar after bar, what [bar_at] describes. *)
Lemma bars_loop_spec (x y : list Py.num) (minimum h : Py.num)
  (range : list nat) :
  forall xbar ybar,
    bars_loop x y minimum h range xbar ybar =
    (ps <- comprehension (bar_at x y minimum h) range ;;
     Ok (xbar ++ map fst ps, ybar ++ map snd ps)).
Proof.
  induction range as [|i range IH]; intros xbar ybar; simpl.
  - now rewrite !app_nil_r.
  - unfold bar_at at 1, bar_x.
    destruct (getitem x i) as [xi|e]; simpl; [|reflexivity].
    destruct (Py.sub xi h) as [l|e]; simpl; [|reflexivity].
    destruct (Py.add xi h) as [r|e]; simpl; [|reflexivity].
    destruct (getitem y i) as [yi|e]; simpl; [|reflexivity].
    rewrite IH.
    destruct (comprehension (bar_at x y minimum h) range) as [ps|e]; simpl;
      [|reflexivity].
    now rewrite <- !app_assoc.
Qed.

Lemma bars_spec (x y : list Py.num) (width minimum : Py.num) :
  x <> [] ->
  bars x y width minimum =
  (h <- bin_size_half x width ;;
   ps <- comprehension (bar_at x y minimum h) (seq 0 (List.length x)) ;;
   Ok (map fst ps, map snd ps)).
Proof.
  intros Hne. unfold bars. destruct x as [|a x]; [congruence|].
  destruct (bin_size_half (a :: x) width) as [h|e]; [|reflexivity].
  cbn [bind]. now rewrite bars_loop_spec.
Qed.

(** With as many heights as coordinates, indexing is plain iteration. *)
Lemma bar_at_zip (minimum h : Py.num) (x : list Py.num) :
  forall y, List.length y = List.length x ->
    (ps <- comprehension (bar_at x y minimum h) (seq 0 (List.length x)) ;;
     Ok (map fst ps, map snd ps)) =
    (xbar <- comprehension (bar_x h) x ;; Ok (xbar, map (bar_y minimum) y)).
Proof.
  induction x as [|a x IH]; intros [|c y] Hlen; try discriminate.
  - reflexivity.
  - cbn [List.length seq comprehension].
    rewrite comprehension_shift.
    rewrite (comprehension_ext_in (fun i => bar_at (a :: x) (c :: y) minimum h (S i))
               (bar_at x y minimum h)) by reflexivity.
    specialize (IH y ltac:(now inversion Hlen)).
    unfold bar_at at 1. cbn [getitem nth_error bind].
    destruct (bar_x h a) as [pa|e]; cbn [bind]; [|reflexivity].
    destruct (comprehension (bar_at x y minimum h) (seq 0 (List.length x)))
      as [ps|e]; cbn [bind] in *.
    + destruct (comprehension (bar_x h) x) as [xbar|e]; cbn [bind] in *;
        [|discriminate].
      inversion IH as [[Hx Hy]]. cbn [map fst snd]. now rewrite Hx, Hy.
    + destruct (comprehension (bar_x h) x) as [xbar|e']; cbn [bind] in *;
        [discriminate|]. now inversion IH.
Qed.

Lemma getitem_firstn {A : Type} (l : list A) (n i : nat) :
  (i < n)%nat -> getitem (firstn n l) i = getitem l i.
Proof. intros Hi. unfold getitem. now rewrite nth_error_firstn, (proj2 (Nat.ltb_lt i n) Hi). Qed.

Lemma Forall2_nth_error_r {A B : Type} (R : A -> B -> Prop) (l : list A)
  (l' : list B) (i : nat) (b : B) :
  Forall2 R l l' -> nth_error l' i = Some b ->
  exists a, nth_error l i = Some a /\ R a b.
Proof.
  intros H. revert i. induction H as [|a0 b0 l l' HR _ IH]; intros i Hi.
  - destruct i; discriminate.
  - destruct i as [|i]; simpl in *.
    + inversion Hi; subst. eauto.
    + auto.
Qed.

Lemma comprehension_In_ok {A B : Type} (f : A -> result B) (l : list A)
  (bs : list B) (a : A) :
  comprehension f l = Ok bs -> In a l -> exists b, f a = Ok b.
Proof.
  intros H Hin. apply comprehension_Forall2 in H.
  induction H as [|a0 b0 l l' HR _ IH]; [destruct Hin|].
  destruct Hin as [->|Hin]; eauto.
Qed.

(** C9. With exactly one bar the half-width divides by [bins - 1 = 0]:
    the call raises [ZeroDivisionError] and returns no geometry. *)
Theorem bars_single_bar_zero_division (v : Py.num) (y : list Py.num)
  (width minimum : Py.num) :
  bars [v] y width minimum = Raise ZeroDivisionError.
Proof.
  unfold bars, bin_size_half. cbn [Py.max Py.min Py.max_from Py.min_from bind].
  destruct v as [z|f]; reflexivity.
Qed.

(** With as many heights as coordinates the loop of [bars] is a plain
    iteration over the coordinates, after the half-width. *)
Lemma bars_zip (x y : list Py.num) (width minimum : Py.num) :
  x <> [] ->
  List.length y = List.length x ->
  bars x y width minimum =
  (h <- bin_size_half x width ;;
   xbar <- comprehension (bar_x h) x ;;
   Ok (xbar, map (bar_y minimum) y)).
Proof.
  intros Hne Hy. rewrite bars_spec by assumption.
  destruct (bin_size_half x width) as [h|e]; cbn [bind]; [|reflexivity].
  now apply bar_at_zip.
Qed.

(** C6. From two bars on, with as many heights as coordinates, [bars]
    computes one half-width [h = (max(x) - min(x)) / (len(x) - 1) * w / 2],
    in this order of operations, and uses it for every bar: the x polygon
    of the bar at [xi] is [[xi - h, xi - h, xi + h, xi + h, xi - h]] and its
    y polygon is [[b, yi, yi, b, b]]; the call raises what the first of
    these operations that fails raises.  On
    [bars([1, 2, 3], [5, 7, 2], 0.8, 0)] the half-width is 0.4 and the
    first x polygon is [[0.6, 0.6, 1.4, 1.4, 0.6]]. *)
Theorem bars_shared_half_width :
  (forall (x y : list Py.num) (width minimum : Py.num),
      (2 <= List.length x)%nat ->
      List.length y = List.length x ->
      bars x y width minimum =
      (M <- Py.max x ;;
       m <- Py.min x ;;
       d <- Py.sub M m ;;
       q <- Py.truediv d (Py.Int (Z.of_nat (List.length x) - 1)) ;;
       p <- Py.mul q width ;;
       h <- Py.truediv p (Py.Int 2) ;;
       xbar <- comprehension
                 (fun xi =>
                    l <- Py.sub xi h ;;
                    r <- Py.add xi h ;;
                    Ok [l; l; r; r; l]) x ;;
       Ok (xbar, map (fun yi => [minimum; yi; yi; minimum; minimum]) y)))
  /\
  (let x := [Py.Int 1; Py.Int 2; Py.Int 3] in
   let y := [Py.Int 5; Py.Int 7; Py.Int 2] in
   let width := Py.Float (Py.lit 8 10) in
   bin_size_half x width = Ok (Py.Float (Py.lit 4 10)) /\
   exists xbar ybar,
     bars x y width (Py.Int 0)
     = Ok ([Py.Float (Py.lit 6 10); Py.Float (Py.lit 6 10);
            Py.Float (Py.lit 14 10); Py.Float (Py.lit 14 10);
            Py.Float (Py.lit 6 10)] :: xbar, ybar) /\
     List.length xbar = 2%nat).
Proof.
  split.
  - intros x y width minimum Hx Hy.
    rewrite bars_zip;
      [|destruct x; [simpl in Hx; lia|discriminate]|assumption].
    unfold bin_size_half. cbv zeta.
    destruct (Py.max x) as [M|e]; cbn [bind]; [|reflexivity].
    destruct (Py.min x) as [m|e]; cbn [bind]; [|reflexivity].
    destruct (Py.sub M m) as [d|e]; cbn [bind]; [|reflexivity].
    destruct (Py.truediv d _) as [q|e]; cbn [bind]; [|reflexivity].
    destruct (Py.mul q width) as [p|e]; cbn [bind]; [|reflexivity].
    reflexivity.
  - cbv zeta. split; [vm_compute; reflexivity|].
    eexists. eexists. split; [vm_compute; reflexivity|reflexivity].
Qed.

Lemma bars_shared_half_width_witness :
  let x := [Py.Int 1; Py.Int 2] in
  let y := [Py.Int 5; Py.Int 7] in
  let width := Py.Float (Py.lit 8 10) in
  let minimum := Py.Int 0 in
  bars x y width minimum =
  (M <- Py.max x ;;
   m <- Py.min x ;;
   d <- Py.sub M m ;;
   q <- Py.truediv d (Py.Int (Z.of_nat (List.length x) - 1)) ;;
   p <- Py.mul q width ;;
   h <- Py.truediv p (Py.Int 2) ;;
   xbar <- comprehension
             (fun xi =>
                l <- Py.sub xi h ;;
                r <- Py.add xi h ;;
                Ok [l; l; r; r; l]) x ;;
   Ok (xbar, map (fun yi => [minimum; yi; yi; minimum; minimum]) y)).
Proof.
  intros x y width minimum.
  apply (proj1 bars_shared_half_width x y width minimum); simpl; [lia|reflexivity].
Defined.

(** C7. Whenever [bars] returns, it returns one x polygon and one y polygon
    per coordinate, and each pair has exactly five corners, in the order
    (left, base), (left, top), (right, top), (right, base), (left, base):
    the last corner is the first one again. *)
Theorem bars_polygons_closed (x y : list Py.num) (width minimum : Py.num)
  (xbar ybar : list polygon) :
  bars x y width minimum = Ok (xbar, ybar) ->
  List.length xbar = List.length x /\
  List.length ybar = List.length x /\
  forall i px py,
    nth_error xbar i = Some px -> nth_error ybar i = Some py ->
    exists h xi left right top,
      bin_size_half x width = Ok h /\
      nth_error x i = Some xi /\ nth_error y i = Some top /\
      Py.sub xi h = Ok left /\ Py.add xi h = Ok right /\
      corners px py = [(left, minimum); (left, top); (right, top);
                       (right, minimum); (left, minimum)] /\
      List.length (corners px py) = 5%nat /\
      nth_error (corners px py) 0 = nth_error (corners px py) 4.
Proof.
  intros Hbars.
  assert (Hx : x = [] \/ x <> []) by (destruct x; [now left|now right]).
  destruct Hx as [->|Hne].
  - inversion Hbars; subst. repeat split; try reflexivity.
    intros i px py Hi. destruct i; discriminate.
  - rewrite bars_spec in Hbars by assumption.
    destruct (bin_size_half x width) as [h|e]; cbn [bind] in Hbars;
      [|discriminate].
    destruct (comprehension (bar_at x y minimum h) (seq 0 (List.length x)))
      as [ps|e] eqn:Hps; cbn [bind] in Hbars; [|discriminate].
    inversion Hbars; subst xbar ybar. clear Hbars.
    pose proof (comprehension_length _ _ _ Hps) as Hlen.
    rewrite length_seq in Hlen.
    rewrite !length_map. split; [assumption|]. split; [assumption|].
    intros i px py Hpx Hpy.
    rewrite nth_error_map in Hpx, Hpy.
    destruct (nth_error ps i) as [[qx qy]|] eqn:Hq; [|discriminate].
    simpl in Hpx, Hpy. inversion Hpx; inversion Hpy; subst qx qy.
    apply comprehension_Forall2 in Hps.
    destruct (Forall2_nth_error_r _ _ _ _ _ Hps Hq) as [j [Hj Hat]].
    assert (j = i).
    { assert (Hi : (i < List.length x)%nat)
        by (rewrite <- Hlen; apply nth_error_Some; congruence).
      rewrite nth_error_seq in Hj.
      destruct (Nat.ltb_spec i (List.length x)); [|lia].
      now inversion Hj. }
    subst j. unfold bar_at, bar_x, getitem in Hat.
    destruct (nth_error x i) as [xi|]; cbn [bind] in Hat; [|discriminate].
    destruct (Py.sub xi h) as [l|] eqn:Hl; cbn [bind] in Hat; [|discriminate].
    destruct (Py.add xi h) as [r|] eqn:Hr; cbn [bind] in Hat; [|discriminate].
    destruct (nth_error y i) as [yi|]; cbn [bind] in Hat; [|discriminate].
    inversion Hat; subst px py.
    exists h, xi, l, r, yi. repeat split; assumption.
Qed.

Lemma bars_polygons_closed_witness :
  let x := [Py.Int 1; Py.Int 2] in
  let y := [Py.Int 5; Py.Int 7] in
  let xbar := [[Py.Float (Py.lit 6 10); Py.Float (Py.lit 6 10);
                Py.Float (Py.lit 14 10); Py.Float (Py.lit 14 10);
                Py.Float (Py.lit 6 10)];
               [Py.Float (Py.lit 16 10); Py.Float (Py.lit 16 10);
                Py.Float (Py.lit 24 10); Py.Float (Py.lit 24 10);
                Py.Float (Py.lit 16 10)]] in
  let ybar := [bar_y (Py.Int 0) (Py.Int 5); bar_y (Py.Int 0) (Py.Int 7)] in
  bars x y (Py.Float (Py.lit 8 10)) (Py.Int 0) = Ok (xbar, ybar) /\
  List.length xbar = List.length x.
Proof.
  intros x y xbar ybar.
  assert (H : bars x y (Py.Float (Py.lit 8 10)) (Py.Int 0) = Ok (xbar, ybar))
    by (vm_compute; reflexivity).
  split; [exact H|].
  exact (proj1 (bars_polygons_closed x y _ _ xbar ybar H)).
Defined.

(** Surplus heights are accepted: two coordinates with three heights yield
    two polygons. *)
Lemma bars_surplus_heights_accepted :
  let x := [Py.Int 1; Py.Int 2] in
  let y := [Py.Int 5; Py.Int 7; Py.Int 2] in
  List.length x <> List.length y /\
  bars x y (Py.Float (Py.lit 8 10)) (Py.Int 0)
  = Ok ([[Py.Float (Py.lit 6 10); Py.Float (Py.lit 6 10);
          Py.Float (Py.lit 14 10); Py.Float (Py.lit 14 10);
          Py.Float (Py.lit 6 10)];
         [Py.Float (Py.lit 16 10); Py.Float (Py.lit 16 10);
          Py.Float (Py.lit 24 10); Py.Float (Py.lit 24 10);
          Py.Float (Py.lit 16 10)]],
        [[Py.Int 0; Py.Int 5; Py.Int 5; Py.Int 0; Py.Int 0];
         [Py.Int 0; Py.Int 7; Py.Int 7; Py.Int 0; Py.Int 0]]).
Proof. split; [discriminate|vm_compute; reflexivity]. Qed.

(** With fewer heights than coordinates the loop stops at the first bar
    without a height: it has computed the x polygons up to and including
    that bar, then [y[i]] is out of range. *)
Lemma bar_at_deficit (minimum h : Py.num) (x : list Py.num) :
  forall y, (List.length y < List.length x)%nat ->
    (ps <- comprehension (bar_at x y minimum h) (seq 0 (List.length x)) ;;
     Ok (map fst ps, map snd ps)) =
    (xbar <- comprehension (bar_x h) (firstn (S (List.length y)) x) ;;
     Raise IndexError).
Proof.
  induction x as [|a x IH]; intros y Hlen; [simpl in Hlen; lia|].
  destruct y as [|c y]; cbn [List.length seq]; rewrite firstn_cons;
    cbn [comprehension].
  - unfold bar_at at 1. rewrite firstn_O.
    cbn [getitem nth_error bind comprehension].
    destruct (bar_x h a) as [pa|e]; reflexivity.
  - rewrite comprehension_shift.
    rewrite (comprehension_ext_in (fun i => bar_at (a :: x) (c :: y) minimum h (S i))
               (bar_at x y minimum h)) by reflexivity.
    specialize (IH y ltac:(simpl in Hlen; lia)).
    unfold bar_at at 1. cbn [getitem nth_error bind].
    destruct (bar_x h a) as [pa|e]; cbn [bind]; [|reflexivity].
    destruct (comprehension (bar_at x y minimum h) (seq 0 (List.length x)))
      as [ps|e];
      destruct (comprehension (bar_x h) (firstn (S (List.length y)) x))
        as [xbar|e']; cbn [bind] in *; try discriminate; exact IH.
Qed.

(** C5, amended. [bars] checks no lengths and knows no input-shape error.
    With more heights than coordinates the surplus heights are ignored:
    the call behaves as on the first [len(x)] heights, that is, it returns
    no polygons for no coordinates and otherwise computes the half-width
    and one polygon pair per coordinate, from the first [len(x)] heights.
    With fewer heights than coordinates the call never returns polygons:
    it raises what the half-width raises, or else what the first failing
    x polygon among the bars [0 .. len(y)] raises, or else [IndexError], at
    the first missing height. *)
Theorem bars_length_mismatch (x y : list Py.num) (width minimum : Py.num) :
  List.length x <> List.length y ->
  ((List.length x < List.length y)%nat /\
   bars x y width minimum
   = bars x (firstn (List.length x) y) width minimum /\
   bars x y width minimum
   = match x with
     | [] => Ok ([], [])
     | _ :: _ =>
         h <- bin_size_half x width ;;
         xbar <- comprehension (bar_x h) x ;;
         Ok (xbar, map (bar_y minimum) (firstn (List.length x) y))
     end)
  \/
  ((List.length y < List.length x)%nat /\
   bars x y width minimum
   = (h <- bin_size_half x width ;;
      xbar <- comprehension (bar_x h) (firstn (S (List.length y)) x) ;;
      Raise IndexError) /\
   forall xbar ybar, bars x y width minimum <> Ok (xbar, ybar)).
Proof.
  intros Hlen.
  destruct (Nat.lt_ge_cases (List.length x) (List.length y)) as [Hlt|Hge].
  - left. split; [assumption|].
    assert (Hcut : bars x y width minimum
                   = bars x (firstn (List.length x) y) width minimum).
    { destruct x as [|a x']; [reflexivity|].
      rewrite !bars_spec by discriminate.
      destruct (bin_size_half (a :: x') width) as [h|e]; cbn [bind];
        [|reflexivity].
      rewrite (comprehension_ext_in
                 (bar_at (a :: x') y minimum h)
                 (bar_at (a :: x') (firstn (List.length (a :: x')) y) minimum h));
        [reflexivity|].
      intros i Hi. apply in_seq in Hi. unfold bar_at.
      now rewrite getitem_firstn by lia. }
    split; [exact Hcut|].
    rewrite Hcut. destruct x as [|a x']; [reflexivity|].
    apply bars_zip; [discriminate|].
    rewrite length_firstn. lia.
  - right. assert (Hlt : (List.length y < List.length x)%nat) by lia.
    split; [assumption|].
    assert (Hraise : bars x y width minimum
                     = (h <- bin_size_half x width ;;
                        xbar <- comprehension (bar_x h)
                                  (firstn (S (List.length y)) x) ;;
                        Raise IndexError)).
    { rewrite bars_spec by (intros ->; simpl in Hlt; lia).
      destruct (bin_size_half x width) as [h|e]; cbn [bind]; [|reflexivity].
      now apply bar_at_deficit. }
    split; [exact Hraise|].
    intros xbar ybar. rewrite Hraise.
    destruct (bin_size_half x width) as [h|e]; cbn [bind]; [|discriminate].
    destruct (comprehension (bar_x h) (firstn (S (List.length y)) x));
      discriminate.
Qed.

Lemma bars_length_mismatch_witness :
  let x := [Py.Int 1; Py.Int 2; Py.Int 3] in
  let y := [Py.Int 5] in
  let w := Py.Float (Py.lit 8 10) in
  List.length x <> List.length y /\
  (((List.length x < List.length y)%nat /\
    bars x y w (Py.Int 0) = bars x (firstn (List.length x) y) w (Py.Int 0) /\
    bars x y w (Py.Int 0)
    = (h <- bin_size_half x w ;;
       xbar <- comprehension (bar_x h) x ;;
       Ok (xbar, map (bar_y (Py.Int 0)) (firstn (List.length x) y))))
   \/
   ((List.length y < List.length x)%nat /\
    bars x y w (Py.Int 0)
    = (h <- bin_size_half x w ;;
       xbar <- comprehension (bar_x h) (firstn (S (List.length y)) x) ;;
       Raise IndexError) /\
    forall xbar ybar, bars x y w (Py.Int 0) <> Ok (xbar, ybar))).
Proof.
  intros x y w.
  assert (Hlen : List.length x <> List.length y) by discriminate.
  split; [exact Hlen|].
  exact (bars_length_mismatch x y w (Py.Int 0) Hlen).
Defined.

(** ** The histogram binner *)

Lemma min_from_In (l : list Py.num) :
  forall cur, In (Py.min_from cur l) (cur :: l).
Proof.
  induction l as [|item l IH]; intros cur; simpl; [now left|].
  destruct (IH (if Py.ltb item cur then item else cur)) as [H|H].
  - destruct (Py.ltb item cur); [right; left|left]; assumption.
  - right. now right.
Qed.

Lemma max_from_In (l : list Py.num) :
  forall cur, In (Py.max_from cur l) (cur :: l).
Proof.
  induction l as [|item l IH]; intros cur; simpl; [now left|].
  destruct (IH (if Py.gtb item cur then item else cur)) as [H|H].
  - destruct (Py.gtb item cur); [right; left|left]; assumption.
  - right. now right.
Qed.

Lemma setitem_end {A : Type} (pre : list A) (c v : A) :
  setitem (pre ++ [c]) (List.length pre) v = pre ++ [v].
Proof. induction pre as [|a pre IH]; simpl; [reflexivity|now rewrite IH]. Qed.

(** Counting one more sample in the last bucket. *)
Lemma increment_last (pre : list Z) (c : Z) :
  increment (pre ++ [c]) (Z.of_nat (List.length pre)) = Ok (pre ++ [c + 1]).
Proof.
  unfold increment. rewrite length_app. cbn [List.length].
  assert (Hneg : (Z.of_nat (List.length pre) <? 0) = false)
    by (apply Z.ltb_ge; lia).
  assert (Hin : (Z.of_nat (List.length pre + 1) <=? Z.of_nat (List.length pre))
                = false) by (apply Z.leb_gt; lia).
  rewrite Hneg. rewrite Hneg, Hin.
  cbn [orb]. rewrite Nat2Z.id. unfold getitem.
  rewrite nth_error_app2, Nat.sub_diag by lia. cbn [nth_error bind].
  now rewrite setitem_end.
Qed.

Lemma count_last (n : nat) (pre : list Z) :
  forall c,
    count (repeat (Z.of_nat (List.length pre)) n) (pre ++ [c])
    = Ok (pre ++ [c + Z.of_nat n]).
Proof.
  induction n as [|n IH]; intros c.
  - simpl. now rewrite Z.add_0_r.
  - cbn [repeat count]. rewrite increment_last. cbn [bind].
    rewrite IH. do 3 f_equal. lia.
Qed.

Section Identical.

Variable linspace : Py.num -> Py.num -> Z -> result (list Py.num).
Variable div : Py.num -> Py.num -> result Py.num.

(** On samples that are all equal the guard [el != M] never holds: the
    normalisation sends each sample to [bins - 1] without dividing. *)
Lemma normalise_identical (a : Py.num) (rest : list Py.num) (bins : Z) :
  all_equal (a :: rest) ->
  comprehension
    (normalise div (Py.min_from a rest) (Py.max_from a rest) bins) (a :: rest)
  = Ok (map (fun _ => Py.Int (bins - 1)) (a :: rest)).
Proof.
  intros Heq. apply comprehension_pure. intros el Hel.
  unfold normalise, Py.neb.
  now rewrite (Heq el _ Hel (max_from_In rest a)).
Qed.

Lemma hist_data_with_identical (a : Py.num) (rest : list Py.num) (bins : Z) :
  all_equal (a :: rest) ->
  hist_data_with linspace div (a :: rest) bins =
  (histx <- linspace (Py.min_from a rest) (Py.max_from a rest) bins ;;
   histy <- count (repeat (bins - 1) (List.length (a :: rest)))
              (repeat 0 (Z.to_nat bins)) ;;
   Ok (histx, histy)).
Proof.
  intros Heq. unfold hist_data_with. cbn [Py.min Py.max bind].
  rewrite (normalise_identical a rest bins Heq). cbn [bind].
  rewrite comprehension_map.
  rewrite (comprehension_pure _ (fun _ => bins - 1)) by reflexivity.
  cbn [bind]. now rewrite map_const.
Qed.

End Identical.

Lemma increment_raises (l : list Z) (i : Z) (e : exn) :
  increment l i = Raise e -> e = IndexError.
Proof.
  unfold increment, getitem.
  destruct ((_ <? 0) || (_ <=? _)); [now inversion 1|].
  destruct (nth_error l _); cbn [bind]; [discriminate|now inversion 1].
Qed.

Lemma count_raises (data histy : list Z) (e : exn) :
  count data histy = Raise e -> e = IndexError.
Proof.
  revert histy. induction data as [|el data IH]; intros histy; simpl;
    [discriminate|].
  destruct (increment histy el) as [histy'|e'] eqn:Hinc; cbn [bind].
  - apply IH.
  - intros H. inversion H; subst. eapply increment_raises; eauto.
Qed.

(** Equal samples do not make [hist_data] return: the bucket positions
    come from [linspace], whose arithmetic is in floating point, and two
    equal integers beyond the range of the floats make it raise
    [OverflowError]. *)
Lemma hist_data_identical_overflow :
  let data := [Py.Int (10 ^ 400); Py.Int (10 ^ 400)] in
  data <> [] /\ all_equal data /\ 1 <= 10 /\
  comprehension
    (normalise Py.truediv (Py.Int (10 ^ 400)) (Py.Int (10 ^ 400)) 10) data
  = Ok [Py.Int 9; Py.Int 9] /\
  linspace_model (Py.Int (10 ^ 400)) (Py.Int (10 ^ 400)) 10
  = Raise OverflowError /\
  hist_data linspace_model data 10 = Raise OverflowError.
Proof.
  split; [discriminate|].
  split; [all_equal_by_cases|].
  split; [lia|].
  split; [vm_compute; reflexivity|].
  split; vm_compute; reflexivity.
Qed.

(** C10, amended. On samples that are all equal, with at least one
    bucket, the normalisation and the counting of [hist_data] divide
    nothing and never fail, whatever the division operator would do: the
    call returns exactly when [linspace(m, M, bins)] returns, and raises
    what [linspace] raises otherwise.  When it returns, every sample is
    counted in the last bucket, index [bins - 1], whose count is the number
    of samples, and every other count is 0. *)
Theorem hist_data_identical_last_bucket
  (linspace : Py.num -> Py.num -> Z -> result (list Py.num))
  (a : Py.num) (rest : list Py.num) (bins : Z) :
  1 <= bins ->
  all_equal (a :: rest) ->
  let counts :=
    repeat 0 (Z.to_nat (bins - 1)) ++ [Z.of_nat (List.length (a :: rest))] in
  let outcome :=
    histx <- linspace (Py.min_from a rest) (Py.max_from a rest) bins ;;
    Ok (histx, counts) in
  (forall div, hist_data_with linspace div (a :: rest) bins = outcome)
  /\ hist_data linspace (a :: rest) bins = outcome
  /\ List.length counts = Z.to_nat bins
  /\ nth_error counts (Z.to_nat (bins - 1))
     = Some (Z.of_nat (List.length (a :: rest)))
  /\ (forall j, (j < Z.to_nat (bins - 1))%nat -> nth_error counts j = Some 0).
Proof.
  intros Hbins Heq counts outcome.
  assert (H : forall div,
             hist_data_with linspace div (a :: rest) bins = outcome).
  { intros div. rewrite hist_data_with_identical by assumption.
    unfold outcome.
    destruct (linspace (Py.min_from a rest) (Py.max_from a rest) bins)
      as [histx|e]; cbn [bind]; [|reflexivity].
    replace (Z.to_nat bins) with (Z.to_nat (bins - 1) + 1)%nat by lia.
    rewrite repeat_app. cbn [repeat].
    replace (bins - 1)
      with (Z.of_nat (List.length (repeat 0 (Z.to_nat (bins - 1))))) at 1
      by (rewrite repeat_length; lia).
    rewrite count_last. reflexivity. }
  split; [exact H|]. split; [apply H|].
  unfold counts. split.
  - rewrite length_app, repeat_length. cbn [List.length]. lia.
  - split.
    + rewrite nth_error_app2 by (rewrite repeat_length; lia).
      rewrite repeat_length, Nat.sub_diag. reflexivity.
    + intros j Hj. rewrite nth_error_app1 by (rewrite repeat_length; lia).
      now rewrite nth_error_repeat.
Qed.

Lemma hist_data_identical_last_bucket_witness :
  hist_data linspace_model [Py.Int 1; Py.Int 1; Py.Int 1; Py.Int 1] 4
  = (histx <- linspace_model (Py.Int 1) (Py.Int 1) 4 ;; Ok (histx, [0; 0; 0; 4])).
Proof.
  apply (hist_data_identical_last_bucket linspace_model (Py.Int 1)
           [Py.Int 1; Py.Int 1; Py.Int 1] 4).
  - lia.
  - all_equal_by_cases.
Defined.

(** Four equal samples in four buckets: the normalisation yields the
    index 3 four times and the call returns the counts, it does not fail
    on a division by zero. *)
Lemma hist_data_identical_returns :
  let data := [Py.Int 1; Py.Int 1; Py.Int 1; Py.Int 1] in
  all_equal data /\
  comprehension (normalise Py.truediv (Py.Int 1) (Py.Int 1) 4) data
  = Ok [Py.Int 3; Py.Int 3; Py.Int 3; Py.Int 3] /\
  hist_data linspace_model data 4
  = Ok ([Py.Float (Py.lit 1 1); Py.Float (Py.lit 1 1);
         Py.Float (Py.lit 1 1); Py.Float (Py.lit 1 1)], [0; 0; 0; 4]) /\
  hist_data linspace_model data 4 <> Raise ZeroDivisionError.
Proof.
  split; [all_equal_by_cases|].
  split; [vm_compute; reflexivity|].
  split; [vm_compute; reflexivity|].
  vm_compute. discriminate.
Qed.

(** C4, amended. On samples that are all equal the normalisation performs
    no division: every sample takes the guarded branch and becomes
    [bins - 1], the outcome of [hist_data] is the same for any division
    operator, and no [ZeroDivisionError] arises unless [linspace] raises
    one. *)
Theorem hist_data_identical_no_division
  (linspace : Py.num -> Py.num -> Z -> result (list Py.num))
  (div : Py.num -> Py.num -> result Py.num)
  (a : Py.num) (rest : list Py.num) (bins : Z) :
  all_equal (a :: rest) ->
  comprehension
    (normalise div (Py.min_from a rest) (Py.max_from a rest) bins) (a :: rest)
  = Ok (map (fun _ => Py.Int (bins - 1)) (a :: rest))
  /\ hist_data_with linspace div (a :: rest) bins
     = hist_data linspace (a :: rest) bins
  /\ (linspace (Py.min_from a rest) (Py.max_from a rest) bins
      <> Raise ZeroDivisionError ->
      hist_data linspace (a :: rest) bins <> Raise ZeroDivisionError).
Proof.
  intros Heq. split; [now apply normalise_identical|].
  unfold hist_data. rewrite !hist_data_with_identical by assumption.
  split; [reflexivity|].
  intros Hlin.
  destruct (linspace (Py.min_from a rest) (Py.max_from a rest) bins)
    as [histx|e]; cbn [bind]; [|congruence].
  destruct (count _ _) as [histy|e] eqn:Hcount; cbn [bind]; [discriminate|].
  apply count_raises in Hcount. subst e. discriminate.
Qed.

Lemma hist_data_identical_no_division_witness :
  hist_data_with linspace_model (fun _ _ => Raise ZeroDivisionError)
    [Py.Int 1; Py.Int 1; Py.Int 1; Py.Int 1] 4
  = hist_data linspace_model [Py.Int 1; Py.Int 1; Py.Int 1; Py.Int 1] 4.
Proof.
  apply (hist_data_identical_no_division linspace_model
           (fun _ _ => Raise ZeroDivisionError) (Py.Int 1)
           [Py.Int 1; Py.Int 1; Py.Int 1] 4).
  all_equal_by_cases.
Defined.

(** *** Conservation of the counts on the runs that return *)

Lemma total_setitem (l : list Z) (j : nat) (c v : Z) :
  nth_error l j = Some c ->
  total (setitem l j v) = total l - c + v /\
  List.length (setitem l j v) = List.length l.
Proof.
  revert j. induction l as [|b l IH]; intros [|j] Hj; simpl in *;
    try discriminate.
  - inversion Hj; subst. split; [lia|reflexivity].
  - destruct (IH j Hj) as [Ht Hl]. rewrite Ht, Hl. split; [lia|reflexivity].
Qed.

Lemma increment_total (l l' : list Z) (i : Z) :
  increment l i = Ok l' ->
  total l' = total l + 1 /\ List.length l' = List.length l.
Proof.
  unfold increment, getitem.
  destruct ((_ <? 0) || (_ <=? _)); [discriminate|].
  destruct (nth_error l _) as [c|] eqn:Hc; cbn [bind]; [|discriminate].
  intros H. inversion H; subst.
  destruct (total_setitem _ _ _ (c + 1) Hc) as [Ht Hl].
  rewrite Ht, Hl. split; [lia|reflexivity].
Qed.

Lemma count_total (data : list Z) :
  forall histy histy',
    count data histy = Ok histy' ->
    total histy' = total histy + Z.of_nat (List.length data) /\
    List.length histy' = List.length histy.
Proof.
  induction data as [|el data IH]; intros histy histy' H; simpl in H.
  - inversion H; subst. simpl. split; [lia|reflexivity].
  - destruct (increment histy el) as [h1|e] eqn:Hinc; cbn [bind] in H;
      [|discriminate].
    destruct (increment_total _ _ _ Hinc) as [Ht Hl].
    destruct (IH _ _ H) as [Ht' Hl'].
    rewrite Ht', Hl', Ht, Hl. cbn [List.length]. split; [lia|reflexivity].
Qed.

Lemma total_zeros (n : nat) : total (repeat 0 n) = 0.
Proof. induction n as [|n IH]; simpl; [reflexivity|exact IH]. Qed.

(** Whenever [hist_data] returns on a non-empty sample, the counts it
    returns add up to the number of samples and there are [bins] of them. *)
Lemma hist_data_counts_conserved
  (linspace : Py.num -> Py.num -> Z -> result (list Py.num))
  (data histx : list Py.num) (bins : Z) (histy : list Z) :
  data <> [] ->
  hist_data linspace data bins = Ok (histx, histy) ->
  total histy = Z.of_nat (List.length data) /\
  List.length histy = Z.to_nat bins.
Proof.
  intros Hne H. unfold hist_data, hist_data_with in H.
  destruct data as [|a rest]; [congruence|].
  cbn [Py.min Py.max bind] in H.
  destruct (comprehension _ (a :: rest)) as [data1|e] eqn:H1; cbn [bind] in H;
    [|discriminate].
  destruct (comprehension Py.int data1) as [data2|e] eqn:H2; cbn [bind] in H;
    [|discriminate].
  destruct (linspace _ _ bins) as [hx|e]; cbn [bind] in H; [|discriminate].
  destruct (count data2 _) as [hy|e] eqn:Hc; cbn [bind] in H; [|discriminate].
  inversion H; subst hx hy.
  destruct (count_total _ _ _ Hc) as [Ht Hl].
  rewrite Ht, Hl, total_zeros, repeat_length.
  apply comprehension_length in H1, H2. rewrite H2, H1.
  split; [lia|reflexivity].
Qed.

(** A NaN sample is not equal to itself: the guard lets it through to the
    division, whose NaN result [int] refuses. *)
Example hist_data_nan :
  hist_data linspace_model [Py.Float S754_nan] 10 = Raise ValueError.
Proof. reflexivity. Qed.

(** C3, at a failing input.  The sample 3.0 differs from the maximum 4.0,
    yet [3.0 - -1e16] and [4.0 - -1e16] round to the same double: the
    normalisation yields [1.0 * 10], the index 10 lies outside the 10
    buckets and the call raises instead of returning counts. *)
Theorem hist_data_rounding_index_error :
  let m := Py.Float (Py.lit (-10000000000000000) 1) in
  let M := Py.Float (Py.lit 4 1) in
  let el := Py.Float (Py.lit 3 1) in
  Py.neb el M = true /\
  normalise Py.truediv m M 10 el = Ok (Py.Float (Py.lit 10 1)) /\
  hist_data linspace_model [m; el; M] 10 = Raise IndexError /\
  hist_data linspace_model
    [Py.Int 0; Py.Int (2 ^ 54 - 1); Py.Int (2 ^ 54)] 10 = Raise IndexError.
Proof.
  cbv zeta. repeat split; vm_compute; reflexivity.
Qed.

(** ** The limit calculators *)

(** *** Integers that a double holds exactly *)

Lemma digits2_pos_size (p : positive) : digits2_pos p = Pos.size p.
Proof. induction p; simpl; congruence. Qed.

Lemma digits2_pos_iter_xO (k p : positive) :
  digits2_pos (Pos.iter xO p k) = (digits2_pos p + k)%positive.
Proof.
  induction k as [|k IH] using Pos.peano_ind.
  - simpl. now rewrite Pos.add_1_r.
  - rewrite Pos.iter_succ. simpl. rewrite IH. lia.
Qed.

Lemma iter_xO_value (k p : positive) :
  Zpos (Pos.iter xO p k) = Zpos p * 2 ^ Zpos k.
Proof.
  induction k as [|k IH] using Pos.peano_ind.
  - simpl. lia.
  - rewrite Pos.iter_succ, Pos2Z.inj_xO, IH, Pos2Z.inj_succ, Z.pow_succ_r
      by lia.
    lia.
Qed.

Lemma digits2_pos_bound (p : positive) :
  Zpos p < 2 ^ 53 -> Zpos (digits2_pos p) <= 53.
Proof.
  intros Hp. rewrite digits2_pos_size.
  pose proof (Pos.size_le p) as Hle.
  apply Pos2Z.pos_le_pos in Hle. rewrite Pos2Z.inj_pow in Hle.
  change (Z.pos p~0) with (2 * Z.pos p) in Hle.
  destruct (Z.le_gt_cases (Zpos (Pos.size p)) 53) as [H|H]; [assumption|].
  assert (2 ^ 54 <= 2 ^ Zpos (Pos.size p)) by (apply Z.pow_le_mono_r; lia).
  assert (2 ^ 54 = 2 * 2 ^ 53) by reflexivity.
  lia.
Qed.

(** A mantissa of exactly 53 bits with an exponent in range is left as
    it is by the rounding. *)
Lemma binary_round_aux_canonical (sx : bool) (mz : positive) (ez : Z) :
  Zpos (digits2_pos mz) = 53 -> -1074 <= ez <= 971 ->
  binary_round_aux 53 1024 sx (Zpos mz) ez loc_Exact = S754_finite sx mz ez.
Proof.
  intros Hd He. unfold binary_round_aux, shr_fexp.
  cbn [Zdigits2 shr_record_of_loc]. rewrite Hd.
  assert (Hf : fexp 53 1024 (53 + ez) - ez = 0) by (unfold fexp, emin; lia).
  rewrite Hf. cbn [shr shr_m loc_of_shr_record round_nearest_even Zdigits2].
  rewrite Hd, Hf. cbn [shr shr_m].
  destruct (Z.leb_spec ez (1024 - 53)); [reflexivity|lia].
Qed.

Lemma binary_round_small (sx : bool) (p : positive) :
  Zpos p < 2 ^ 53 ->
  exists m e,
    binary_round 53 1024 sx p 0 = S754_finite sx m e /\
    e <= 0 /\ Zpos m = Zpos p * 2 ^ (- e).
Proof.
  intros Hp. pose proof (digits2_pos_bound p Hp) as Hd.
  unfold binary_round.
  assert (Hf : fexp 53 1024 (Zpos (digits2_pos p) + 0)
               = Zpos (digits2_pos p) - 53)
    by (unfold fexp, emin; lia).
  rewrite Hf. unfold shl_align. rewrite Z.sub_0_r.
  destruct (Zpos (digits2_pos p) - 53) as [|k|k] eqn:Hk; [|lia|].
  - exists p, 0. split; [|split; [lia|simpl; lia]].
    apply binary_round_aux_canonical; lia.
  - exists (Pos.iter xO p k), (Zneg k). split; [|split; [lia|]].
    + apply binary_round_aux_canonical; [|lia].
      rewrite digits2_pos_iter_xO. lia.
    + rewrite iter_xO_value. reflexivity.
Qed.

(** [float(z)] is exact up to 2^53 in magnitude. *)
Lemma float_of_int_exact (z : Z) :
  z <> 0 -> Z.abs z <= 2 ^ 53 ->
  exists s m e,
    Py.float_of_int z = Ok (S754_finite s m e) /\
    Py.compare_int_float z (S754_finite s m e) = Some Eq.
Proof.
  intros Hz Habs.
  destruct (Z.eq_dec (Z.abs z) (2 ^ 53)) as [Hmax|Hlt].
  - assert (Hcases : z = 2 ^ 53 \/ z = - 2 ^ 53) by lia.
    destruct Hcases as [-> | ->]; do 3 eexists;
      (split; [vm_compute; reflexivity|vm_compute; reflexivity]).
  - destruct z as [|p|p]; [congruence| |].
    + destruct (binary_round_small false p) as [m [e [Hr [He Hm]]]]; [lia|].
      exists false, m, e. unfold Py.float_of_int, Py.prec, Py.emax.
      cbn [binary_normalize]. rewrite Hr. split; [reflexivity|].
      unfold Py.compare_int_float. cbn [cond_Zopp]. f_equal.
      destruct (Z.leb_spec 0 e).
      * assert (e = 0) by lia. subst e. apply Z.compare_eq_iff.
        simpl in Hm. lia.
      * apply Z.compare_eq_iff. lia.
    + destruct (binary_round_small true p) as [m [e [Hr [He Hm]]]]; [lia|].
      exists true, m, e. unfold Py.float_of_int, Py.prec, Py.emax.
      cbn [binary_normalize]. rewrite Hr. split; [reflexivity|].
      unfold Py.compare_int_float. cbn [cond_Zopp]. f_equal.
      destruct (Z.leb_spec 0 e).
      * assert (e = 0) by lia. subst e. apply Z.compare_eq_iff.
        simpl in Hm. lia.
      * apply Z.compare_eq_iff.
        change (Z.neg p) with (- Z.pos p). lia.
Qed.

(** Limits of a series that holds missing values only. *)
Example update_bar_xlim_all_missing :
  update_bar_xlim [None; None] = (None, None).
Proof. reflexivity. Qed.

(** *** [update_bar_xlim] and [update_bar_ylim] *)

Lemma drop_none_In (y : list (option Py.num)) (v : Py.num) :
  In v (drop_none y) <-> In (Some v) y.
Proof.
  induction y as [|[el|] y IH]; simpl.
  - tauto.
  - rewrite IH. split; intros [H|H]; auto; left; congruence.
  - rewrite IH. split; [auto|]. intros [H|H]; [discriminate|assumption].
Qed.

(** With both limits present, the lower one is replaced by the shrunk
    value exactly when that value is greater than 0. *)
Lemma update_bar_ylim_unfold (y : list (option Py.num)) (lo hi : Py.num) :
  update_bar_xlim y = (Some lo, Some hi) ->
  update_bar_ylim y =
  (delta <- margin lo hi ;;
   shrunk <- Py.sub lo delta ;;
   Ok (Some (if Py.gtb shrunk (Py.Int 0) then shrunk else lo), Some hi)).
Proof.
  intros Hlim. unfold update_bar_ylim, margin. rewrite Hlim.
  destruct (Py.sub hi lo) as [d|e]; cbn [bind]; [|reflexivity].
  destruct (Py.truediv d (Py.Int 20)) as [delta|e]; cbn [bind]; [|reflexivity].
  destruct (Py.sub lo delta) as [shrunk|e]; cbn [bind]; [|reflexivity].
  destruct (Py.gtb shrunk (Py.Int 0)); reflexivity.
Qed.

Lemma margin_single (v : Py.num) :
  is_finite v = true -> margin v v = Ok (Py.Float Py.pos_zero).
Proof.
  unfold margin. destruct v as [z|[s|s| |s m e]]; try discriminate; intros _.
  - unfold Py.sub. rewrite Z.sub_diag. reflexivity.
  - destruct s; reflexivity.
  - unfold Py.sub, Py.to_float. cbn [bind]. unfold SFsub.
    rewrite Z.sub_diag. reflexivity.
Qed.

Lemma update_bar_ylim_single_float (f : Py.float) :
  update_bar_ylim [Some (Py.Float f)]
  = Ok (Some (Py.Float f), Some (Py.Float f)).
Proof.
  rewrite (update_bar_ylim_unfold _ (Py.Float f) (Py.Float f)) by reflexivity.
  destruct f as [s|s| |s m e].
  - destruct s; reflexivity.
  - destruct s; reflexivity.
  - reflexivity.
  - rewrite margin_single by reflexivity. cbn [bind].
    change (Py.sub (Py.Float (S754_finite s m e)) (Py.Float Py.pos_zero))
      with (Ok (A := Py.num) (Py.Float (S754_finite s m e))).
    cbn [bind]. now destruct (Py.gtb _ _).
Qed.

Lemma update_bar_ylim_single_int (z : Z) :
  Z.abs z <= 2 ^ 53 ->
  exists lo,
    update_bar_ylim [Some (Py.Int z)] = Ok (Some lo, Some (Py.Int z)) /\
    Py.eqb lo (Py.Int z) = true.
Proof.
  intros Habs.
  rewrite (update_bar_ylim_unfold _ (Py.Int z) (Py.Int z)) by reflexivity.
  rewrite margin_single by reflexivity. cbn [bind].
  destruct (Z.eq_dec z 0) as [->|Hz].
  - exists (Py.Int 0). split; reflexivity.
  - destruct (float_of_int_exact z Hz Habs) as [s [m [e [Hf Hcmp]]]].
    unfold Py.sub, Py.to_float. rewrite Hf. cbn [bind].
    change (SFsub Py.prec Py.emax (S754_finite s m e) Py.pos_zero)
      with (S754_finite s m e).
    eexists. split; [reflexivity|].
    destruct (Py.gtb _ _).
    + unfold Py.eqb, Py.compare. now rewrite Hcmp.
    + unfold Py.eqb, Py.compare. now rewrite Z.compare_refl.
Qed.

(** The lower limit of the single integer 2^53 + 1 comes back as the
    double 2^53, a different number, although the margin is zero. *)
Lemma update_bar_ylim_single_rounds :
  let v := Py.Int (2 ^ 53 + 1) in
  let lo := Py.Float (S754_finite false (2 ^ 52) 1) in
  margin v v = Ok (Py.Float Py.pos_zero) /\
  update_bar_ylim [Some v] = Ok (Some lo, Some v) /\
  Py.eqb lo (Py.Int (2 ^ 53)) = true /\
  Py.eqb lo v = false.
Proof. cbv zeta. repeat split; vm_compute; reflexivity. Qed.

(** C8, amended. [update_bar_ylim] takes the limits of the values that are
    not missing; without any value both limits are [None]; otherwise the
    lower limit becomes [min - (max - min) / 20] exactly when that value
    is greater than 0 and stays [min] when it is not, so that a positive
    minimum never yields a lower limit that is not positive.  A single
    element has a zero margin when it is finite, and its lower limit is
    unchanged when the element is a float, and equal in value to the
    element when it is an integer of magnitude at most 2^53. *)
Theorem update_bar_ylim_margin :
  (forall y,
      update_bar_xlim y = (min_default (drop_none y), max_default (drop_none y))
      /\ (forall v, In v (drop_none y) <-> In (Some v) y)
      /\ (drop_none y = [] -> update_bar_ylim y = Ok (None, None)))
  /\
  (forall y lo hi,
      update_bar_xlim y = (Some lo, Some hi) ->
      update_bar_ylim y =
      (delta <- margin lo hi ;;
       shrunk <- Py.sub lo delta ;;
       Ok (Some (if Py.gtb shrunk (Py.Int 0) then shrunk else lo), Some hi)))
  /\
  (forall y lo hi lo' hi',
      update_bar_xlim y = (Some lo, Some hi) ->
      Py.gtb lo (Py.Int 0) = true ->
      update_bar_ylim y = Ok (lo', hi') ->
      exists l, lo' = Some l /\ Py.gtb l (Py.Int 0) = true /\ hi' = Some hi)
  /\
  (forall v, is_finite v = true -> margin v v = Ok (Py.Float Py.pos_zero))
  /\
  (forall f,
      update_bar_ylim [Some (Py.Float f)]
      = Ok (Some (Py.Float f), Some (Py.Float f)))
  /\
  (forall z,
      Z.abs z <= 2 ^ 53 ->
      exists lo,
        update_bar_ylim [Some (Py.Int z)] = Ok (Some lo, Some (Py.Int z)) /\
        Py.eqb lo (Py.Int z) = true).
Proof.
  split; [|split; [|split; [|split; [|split]]]].
  - intros y. split; [reflexivity|]. split; [apply drop_none_In|].
    intros Hnone. unfold update_bar_ylim, update_bar_xlim. now rewrite Hnone.
  - apply update_bar_ylim_unfold.
  - intros y lo hi lo' hi' Hlim Hpos Hret.
    rewrite (update_bar_ylim_unfold _ _ _ Hlim) in Hret.
    destruct (margin lo hi) as [delta|e]; cbn [bind] in Hret; [|discriminate].
    destruct (Py.sub lo delta) as [shrunk|e]; cbn [bind] in Hret;
      [|discriminate].
    inversion Hret; subst lo' hi'. eexists. split; [reflexivity|].
    split; [|reflexivity].
    destruct (Py.gtb shrunk (Py.Int 0)) eqn:Hs; assumption.
  - apply margin_single.
  - apply update_bar_ylim_single_float.
  - apply update_bar_ylim_single_int.
Qed.

Lemma update_bar_ylim_margin_witness :
  exists l,
    Some (Py.Float (Py.lit 19 2)) = Some l /\
    Py.gtb l (Py.Int 0) = true /\
    Some (Py.Int 20) = Some (Py.Int 20).
Proof.
  apply (proj1 (proj2 (proj2 update_bar_ylim_margin))
           [Some (Py.Int 10); None; Some (Py.Int 20)]
           (Py.Int 10) (Py.Int 20)); vm_compute; reflexivity.
Defined.

(** * Further properties *)

(** ** The label resolver across calls *)

Section ResolverCalls.

Variable float_repr : Py.float -> string.
Variable get_labels : list value -> string -> result (list string).

(** A call that reports a labelled series went through the registry loop. *)
Lemma update_bars_labelled_inv (x : list value) (bars : registry)
  (offset : Py.num) (c : list value) (labels : list string) (bars' : registry) :
  update_bars float_repr get_labels x bars offset = Ok (c, labels, true, bars') ->
  existsb is_str x = true /\
  labels = map (str float_repr) x /\
  bars' = resolved_registry bars labels /\
  exists xn,
    c = map (fun p => Num (Py.Int p)) xn /\
    update_bars_loop labels [] bars = (xn, bars') /\
    Forall2 (fun l p => dict_get bars' l = Some p) labels xn.
Proof.
  intros H. unfold update_bars in H.
  destruct (existsb is_str x) eqn:Hlab; cbn [negb] in H.
  - destruct (update_bars_loop_spec (map (str float_repr) x) [] bars)
      as [ps [Hloop Hall]].
    rewrite Hloop in H. cbn [app] in H.
    assert (Hne : map (str float_repr) x <> [])
      by (destruct x; [discriminate|discriminate]).
    destruct (map (str float_repr) x) as [|l0 ls] eqn:Hl; [congruence|].
    inversion H; subst. repeat split; try reflexivity.
    exists ps. repeat split; assumption.
  - destruct (get_labels x "linear"); cbn [bind] in H; [|discriminate].
    inversion H.
Qed.

Lemma Forall2_functional {A B : Type} (R : A -> B -> Prop) (l : list A)
  (l1 l2 : list B) :
  (forall a b b', R a b -> R a b' -> b = b') ->
  Forall2 R l l1 -> Forall2 R l l2 -> l1 = l2.
Proof.
  intros Hfun H1. revert l2. induction H1 as [|a b l l1 HR _ IH]; intros l2 H2.
  - now inversion H2.
  - inversion H2; subst. f_equal; eauto.
Qed.

(** The loop adds to the list it is given. *)
Lemma update_bars_loop_acc (labels : list string) (xn : list Z)
  (bars : registry) :
  update_bars_loop labels xn bars =
  (xn ++ fst (update_bars_loop labels [] bars),
   snd (update_bars_loop labels [] bars)).
Proof.
  destruct (update_bars_loop_spec labels xn bars) as [ps [Hloop Hall]].
  destruct (update_bars_loop_spec labels [] bars) as [ps0 [Hloop0 Hall0]].
  rewrite Hloop, Hloop0. cbn [fst snd app].
  f_equal. f_equal.
  eapply Forall2_functional; [|exact Hall|exact Hall0].
  intros a b b' H1 H2. congruence.
Qed.

Lemma update_bars_loop_app (l1 l2 : list string) :
  forall (xn : list Z) (bars : registry),
    update_bars_loop (l1 ++ l2) xn bars =
    update_bars_loop l2 (fst (update_bars_loop l1 xn bars))
      (snd (update_bars_loop l1 xn bars)).
Proof.
  induction l1 as [|el l1 IH]; intros xn bars; [reflexivity|].
  cbn [app update_bars_loop].
  destruct (dict_get bars el); apply IH.
Qed.

(** Labels that the registry knows are looked up and nothing is added. *)
Lemma update_bars_loop_known (bars : registry) (labels : list string)
  (ps : list Z) :
  Forall2 (fun l p => dict_get bars l = Some p) labels ps ->
  forall xn, update_bars_loop labels xn bars = (xn ++ ps, bars).
Proof.
  induction 1 as [|l p labels ps Hl _ IH]; intros xn; simpl.
  - now rewrite app_nil_r.
  - rewrite Hl, IH, <- app_assoc. reflexivity.
Qed.

(** X1.  Feeding a labelled batch and then another one, with the registry the
    first call returned, gives the coordinates, labels and registry of
    the single call on the two batches joined. *)
Theorem update_bars_batches (x1 x2 c1 c2 : list value) (l1 l2 : list string)
  (bars b1 b2 : registry) (offset1 offset2 offset : Py.num) :
  update_bars float_repr get_labels x1 bars offset1 = Ok (c1, l1, true, b1) ->
  update_bars float_repr get_labels x2 b1 offset2 = Ok (c2, l2, true, b2) ->
  update_bars float_repr get_labels (x1 ++ x2) bars offset
  = Ok (c1 ++ c2, l1 ++ l2, true, b2).
Proof.
  intros H1 H2.
  destruct (update_bars_labelled_inv _ _ _ _ _ _ H1)
    as [Hs1 [Hl1 [_ [xn1 [Hc1 [Hloop1 _]]]]]].
  destruct (update_bars_labelled_inv _ _ _ _ _ _ H2)
    as [Hs2 [Hl2 [_ [xn2 [Hc2 [Hloop2 _]]]]]].
  unfold update_bars. rewrite existsb_app, Hs1. cbn [orb negb].
  rewrite map_app, <- Hl1, <- Hl2.
  rewrite update_bars_loop_app, Hloop1. cbn [fst snd].
  rewrite update_bars_loop_acc, Hloop2. cbn [fst snd].
  assert (Hne : l1 ++ l2 <> []).
  { subst l1. destruct x1; [discriminate|discriminate]. }
  destruct (l1 ++ l2) as [|l0 ls]; [congruence|].
  subst c1 c2. now rewrite map_app.
Qed.

(** X2.  Calling again on the same batch, with the registry just returned,
    returns the same coordinates and leaves that registry as it is. *)
Theorem update_bars_stable (x c : list value) (labels : list string)
  (bars b1 : registry) (offset1 offset2 : Py.num) :
  update_bars float_repr get_labels x bars offset1 = Ok (c, labels, true, b1) ->
  update_bars float_repr get_labels x b1 offset2 = Ok (c, labels, true, b1).
Proof.
  intros H.
  destruct (update_bars_labelled_inv _ _ _ _ _ _ H)
    as [Hs [Hl [_ [xn [Hc [_ Hall]]]]]].
  unfold update_bars. rewrite Hs. cbn [negb]. rewrite <- Hl.
  rewrite (update_bars_loop_known _ _ _ Hall). cbn [app].
  assert (Hne : labels <> []).
  { subst labels. destruct x; [discriminate|discriminate]. }
  destruct labels as [|l0 ls]; [congruence|].
  now subst c.
Qed.

End ResolverCalls.

(** ** Coordinates of a labelled batch *)

Lemma dict_get_In {V : Type} (d : dict V) (k : string) (v : V) :
  dict_get d k = Some v -> In (k, v) d.
Proof.
  induction d as [|[k' v'] d IH]; simpl; [discriminate|].
  destruct (String.eqb_spec k k') as [->|_].
  - intros H. inversion H. now left.
  - intros H. right. auto.
Qed.

Lemma positions_from_In (start n : nat) (p : Z) :
  In p (positions_from start n) ->
  Z.of_nat start <= p < Z.of_nat start + Z.of_nat n.
Proof.
  unfold positions_from. rewrite in_map_iff.
  intros [k [<- Hk]]. apply in_seq in Hk. lia.
Qed.

Lemma positions_from_NoDup (start n : nat) : NoDup (positions_from start n).
Proof.
  unfold positions_from.
  pose proof (seq_NoDup n start) as Hnd.
  induction Hnd as [|a l Hnotin _ IH]; simpl; constructor; [|assumption].
  rewrite in_map_iff. intros [b [Heq Hin]].
  apply Nat2Z.inj in Heq. now subst b.
Qed.

(** In a registry that keeps the invariant a stored position lies between
    1 and the size, and belongs to one name only. *)
Lemma registry_ok_range (bars : registry) (l : string) (p : Z) :
  registry_ok bars -> dict_get bars l = Some p -> 1 <= p <= dict_len bars.
Proof.
  intros [_ Hpos] Hget. apply dict_get_In in Hget.
  apply (in_map snd) in Hget. rewrite Hpos in Hget. cbn [snd] in Hget.
  apply positions_from_In in Hget. unfold dict_len. lia.
Qed.

Lemma NoDup_map_snd_inj {A B : Type} (l : list (A * B)) (a a' : A) (b : B) :
  NoDup (map snd l) -> In (a, b) l -> In (a', b) l -> a = a'.
Proof.
  induction l as [|[a0 b0] l IH]; intros Hnd H1 H2; [destruct H1|].
  simpl in Hnd. inversion Hnd as [|? ? Hnotin Hnd']; subst.
  destruct H1 as [H1|H1], H2 as [H2|H2].
  - congruence.
  - inversion H1; subst. exfalso. apply Hnotin.
    change b with (snd (a', b)). now apply in_map.
  - inversion H2; subst. exfalso. apply Hnotin.
    change b with (snd (a, b)). now apply in_map.
  - auto.
Qed.

Lemma registry_ok_injective (bars : registry) (l l' : string) (p : Z) :
  registry_ok bars ->
  dict_get bars l = Some p -> dict_get bars l' = Some p -> l = l'.
Proof.
  intros [_ Hpos] H1 H2.
  eapply NoDup_map_snd_inj; [|eapply dict_get_In; eauto..].
  rewrite Hpos. apply positions_from_NoDup.
Qed.

Lemma Forall2_nth_error_both {A B : Type} (R : A -> B -> Prop) (l : list A)
  (l' : list B) (i : nat) (a : A) (b : B) :
  Forall2 R l l' -> nth_error l i = Some a -> nth_error l' i = Some b -> R a b.
Proof.
  intros H. revert i. induction H as [|a0 b0 l l' HR _ IH]; intros i Ha Hb.
  - destruct i; discriminate.
  - destruct i as [|i]; simpl in *.
    + inversion Ha; inversion Hb; subst. assumption.
    + eauto.
Qed.

Section Coordinates.

Variable float_repr : Py.float -> string.
Variable get_labels : list value -> string -> result (list string).

(** X3.  A labelled batch resolved against a registry that keeps the invariant
    gets one coordinate and one label per element, every coordinate is an
    integer between 1 and the size of the returned registry, and that size
    is the old size plus the number of distinct names that were new. *)
Theorem update_bars_coordinates_in_range (x c : list value)
  (labels : list string) (bars b1 : registry) (offset : Py.num) :
  registry_ok bars ->
  update_bars float_repr get_labels x bars offset = Ok (c, labels, true, b1) ->
  List.length c = List.length x /\
  List.length labels = List.length x /\
  dict_len b1
  = dict_len bars
    + Z.of_nat (List.length (first_seen (map fst bars) labels)) /\
  forall i v,
    nth_error c i = Some v ->
    exists p, v = Num (Py.Int p) /\ 1 <= p <= dict_len b1.
Proof.
  intros Hok H.
  destruct (update_bars_labelled_inv _ _ _ _ _ _ _ _ H)
    as [_ [Hl [Hb [xn [Hc [_ Hall]]]]]].
  pose proof (Forall2_length Hall) as Hlen.
  assert (Hok1 : registry_ok b1) by (subst b1; now apply resolved_registry_ok).
  assert (Hlabels : List.length labels = List.length x)
    by (subst labels; apply length_map).
  split; [subst c; rewrite length_map; congruence|].
  split; [assumption|].
  split.
  - subst b1. unfold resolved_registry, dict_len.
    rewrite length_app, length_combine, positions_from_length, Nat.min_id.
    lia.
  - intros i v Hv. subst c. rewrite nth_error_map in Hv.
    destruct (nth_error xn i) as [p|] eqn:Hp; [|discriminate].
    inversion Hv; subst v. exists p. split; [reflexivity|].
    destruct (Forall2_nth_error_r _ _ _ _ _ Hall Hp) as [l [_ Hget]].
    eapply registry_ok_range; eauto.
Qed.

(** X4.  Under the same conditions two elements of the batch get the same
    coordinate exactly when their labels are the same string. *)
Theorem update_bars_same_coordinate_iff (x c : list value)
  (labels : list string) (bars b1 : registry) (offset : Py.num)
  (i j : nat) (ci cj : value) (li lj : string) :
  registry_ok bars ->
  update_bars float_repr get_labels x bars offset = Ok (c, labels, true, b1) ->
  nth_error c i = Some ci -> nth_error c j = Some cj ->
  nth_error labels i = Some li -> nth_error labels j = Some lj ->
  (ci = cj <-> li = lj).
Proof.
  intros Hok H Hci Hcj Hli Hlj.
  destruct (update_bars_labelled_inv _ _ _ _ _ _ _ _ H)
    as [_ [Hl [Hb [xn [Hc [_ Hall]]]]]].
  assert (Hok1 : registry_ok b1) by (subst b1; now apply resolved_registry_ok).
  subst c. rewrite nth_error_map in Hci, Hcj.
  destruct (nth_error xn i) as [pi|] eqn:Hpi; [|discriminate].
  destruct (nth_error xn j) as [pj|] eqn:Hpj; [|discriminate].
  inversion Hci; inversion Hcj; subst ci cj.
  pose proof (Forall2_nth_error_both _ _ _ _ _ _ Hall Hli Hpi) as Hgi.
  pose proof (Forall2_nth_error_both _ _ _ _ _ _ Hall Hlj Hpj) as Hgj.
  cbv beta in Hgi, Hgj. split.
  - intros Heq. inversion Heq; subst pj.
    eapply registry_ok_injective; eauto.
  - intros ->. congruence.
Qed.

End Coordinates.

Lemma update_bars_batches_witness :
  let float_repr := fun _ : Py.float => "nan"%string in
  let get_labels := fun (_ : list value) (_ : string) =>
                      Raise (A := list string) TypeError in
  update_bars float_repr get_labels
    ([Str "a"; Str "b"] ++ [Str "b"; Num (Py.Int 7)]) [] (Py.Int 0)
  = Ok ([Num (Py.Int 1); Num (Py.Int 2)] ++ [Num (Py.Int 2); Num (Py.Int 3)],
        ["a"; "b"]%string ++ ["b"; "7"]%string, true,
        [("a", 1); ("b", 2); ("7", 3)]%string).
Proof.
  intros float_repr get_labels.
  apply (update_bars_batches float_repr get_labels
           [Str "a"; Str "b"] [Str "b"; Num (Py.Int 7)]
           [Num (Py.Int 1); Num (Py.Int 2)] [Num (Py.Int 2); Num (Py.Int 3)]
           ["a"; "b"]%string ["b"; "7"]%string
           [] [("a", 1); ("b", 2)]%string [("a", 1); ("b", 2); ("7", 3)]%string
           (Py.Int 0) (Py.Int 0) (Py.Int 0)); reflexivity.
Defined.

Lemma update_bars_stable_witness :
  let float_repr := fun _ : Py.float => "nan"%string in
  let get_labels := fun (_ : list value) (_ : string) =>
                      Raise (A := list string) TypeError in
  update_bars float_repr get_labels [Str "a"; Str "b"; Str "a"]
    [("a", 1); ("b", 2)]%string (Py.Int 0)
  = Ok ([Num (Py.Int 1); Num (Py.Int 2); Num (Py.Int 1)],
        ["a"; "b"; "a"]%string, true, [("a", 1); ("b", 2)]%string).
Proof.
  intros float_repr get_labels.
  apply (update_bars_stable float_repr get_labels
           [Str "a"; Str "b"; Str "a"]
           [Num (Py.Int 1); Num (Py.Int 2); Num (Py.Int 1)]
           ["a"; "b"; "a"]%string [] [("a", 1); ("b", 2)]%string
           (Py.Int 0) (Py.Int 0)); reflexivity.
Defined.

Lemma update_bars_coordinates_in_range_witness :
  let float_repr := fun _ : Py.float => "nan"%string in
  let get_labels := fun (_ : list value) (_ : string) =>
                      Raise (A := list string) TypeError in
  let c := [Num (Py.Int 2); Num (Py.Int 1); Num (Py.Int 2)] in
  let b1 := [("c", 1); ("a", 2)]%string in
  List.length c = 3%nat /\
  List.length ["a"; "c"; "a"]%string = 3%nat /\
  dict_len b1 = 1 + 1 /\
  forall i v,
    nth_error c i = Some v ->
    exists p, v = Num (Py.Int p) /\ 1 <= p <= dict_len b1.
Proof.
  intros float_repr get_labels c b1.
  apply (update_bars_coordinates_in_range float_repr get_labels
           [Str "a"; Str "c"; Str "a"] c ["a"; "c"; "a"]%string
           [("c", 1)]%string b1 (Py.Int 0)).
  - split; [repeat constructor; simpl; tauto|reflexivity].
  - reflexivity.
Defined.

Lemma update_bars_same_coordinate_iff_witness :
  Num (Py.Int 2) = Num (Py.Int 2) <-> "7"%string = "7"%string.
Proof.
  apply (update_bars_same_coordinate_iff
           (fun _ : Py.float => "nan"%string)
           (fun (_ : list value) (_ : string) => Raise TypeError)
           [Str "a"; Num (Py.Int 7); Str "7"]
           [Num (Py.Int 1); Num (Py.Int 2); Num (Py.Int 2)]
           ["a"; "7"; "7"]%string [] [("a", 1); ("7", 2)]%string
           (Py.Int 0) 1%nat 2%nat).
  - exact registry_ok_empty.
  - reflexivity.
  - reflexivity.
  - reflexivity.
  - reflexivity.
  - reflexivity.
Defined.

(** ** Limits of a series *)

Lemma update_bar_xlim_cases (y : list (option Py.num))
  (lo hi : option Py.num) :
  update_bar_xlim y = (lo, hi) ->
  (lo = None /\ hi = None) \/
  (exists a b, lo = Some a /\ hi = Some b /\ In (Some a) y /\ In (Some b) y).
Proof.
  unfold update_bar_xlim. intros H.
  destruct (drop_none y) as [|a l] eqn:Hd; inversion H; subst.
  - now left.
  - right. exists (Py.min_from a l), (Py.max_from a l).
    repeat split; apply drop_none_In; rewrite Hd.
    + apply min_from_In.
    + apply max_from_In.
Qed.

(** X5.  [update_bar_xlim] returns no limit exactly when every entry is missing;
    otherwise both limits are values of the series. *)
Theorem update_bar_xlim_attained (y : list (option Py.num)) :
  (update_bar_xlim y = (None, None) <-> Forall (fun el => el = None) y) /\
  (forall lo hi,
      update_bar_xlim y = (lo, hi) ->
      (lo = None /\ hi = None) \/
      (exists a b, lo = Some a /\ hi = Some b /\ In (Some a) y /\ In (Some b) y)).
Proof.
  split; [|apply update_bar_xlim_cases].
  unfold update_bar_xlim. split.
  - intros H. apply Forall_forall. intros [v|] Hin; [|reflexivity].
    apply drop_none_In in Hin.
    destruct (drop_none y); [destruct Hin|discriminate].
  - intros H. rewrite Forall_forall in H.
    destruct (drop_none y) as [|a l] eqn:Hd; [reflexivity|].
    assert (Hin : In (Some a) y) by (apply drop_none_In; rewrite Hd; now left).
    apply H in Hin. discriminate.
Qed.

Lemma min_from_int (l : list Py.num) :
  Forall (fun v => exists z, v = Py.Int z) l ->
  forall c, exists a,
    Py.min_from (Py.Int c) l = Py.Int a /\ a <= c /\
    forall z, In (Py.Int z) l -> a <= z.
Proof.
  induction 1 as [|v l [z0 ->] _ IH]; intros c; simpl.
  - exists c. split; [reflexivity|]. split; [lia|]. intros z [].
  - unfold Py.ltb, Py.compare.
    destruct (Z.compare_spec z0 c) as [Heq|Hlt|Hgt].
    + destruct (IH c) as [a [Ha [Hle Hall]]]. exists a.
      split; [assumption|]. split; [assumption|].
      intros z [Hz|Hz]; [inversion Hz; lia|auto].
    + destruct (IH z0) as [a [Ha [Hle Hall]]]. exists a.
      split; [assumption|]. split; [lia|].
      intros z [Hz|Hz]; [inversion Hz; lia|auto].
    + destruct (IH c) as [a [Ha [Hle Hall]]]. exists a.
      split; [assumption|]. split; [assumption|].
      intros z [Hz|Hz]; [inversion Hz; lia|auto].
Qed.

Lemma max_from_int (l : list Py.num) :
  Forall (fun v => exists z, v = Py.Int z) l ->
  forall c, exists b,
    Py.max_from (Py.Int c) l = Py.Int b /\ c <= b /\
    forall z, In (Py.Int z) l -> z <= b.
Proof.
  induction 1 as [|v l [z0 ->] _ IH]; intros c; simpl.
  - exists c. split; [reflexivity|]. split; [lia|]. intros z [].
  - unfold Py.gtb, Py.compare.
    destruct (Z.compare_spec z0 c) as [Heq|Hlt|Hgt].
    + destruct (IH c) as [b [Hb [Hle Hall]]]. exists b.
      split; [assumption|]. split; [assumption|].
      intros z [Hz|Hz]; [inversion Hz; lia|auto].
    + destruct (IH c) as [b [Hb [Hle Hall]]]. exists b.
      split; [assumption|]. split; [assumption|].
      intros z [Hz|Hz]; [inversion Hz; lia|auto].
    + destruct (IH z0) as [b [Hb [Hle Hall]]]. exists b.
      split; [assumption|]. split; [lia|].
      intros z [Hz|Hz]; [inversion Hz; lia|auto].
Qed.

(** X6.  On a series of integers (and missing values) with at least one
    integer, the limits are integers [a <= b] and every integer of the
    series lies between them. *)
Theorem update_bar_xlim_int_bounds (y : list (option Py.num)) (v0 : Py.num) :
  (forall v, In (Some v) y -> exists z, v = Py.Int z) ->
  In (Some v0) y ->
  exists a b,
    update_bar_xlim y = (Some (Py.Int a), Some (Py.Int b)) /\
    a <= b /\
    forall z, In (Some (Py.Int z)) y -> a <= z <= b.
Proof.
  intros Hint Hv0. unfold update_bar_xlim.
  assert (Hall : Forall (fun v => exists z, v = Py.Int z) (drop_none y)).
  { apply Forall_forall. intros v Hv. apply Hint. now apply drop_none_In. }
  assert (Hmem : forall z, In (Some (Py.Int z)) y -> In (Py.Int z) (drop_none y))
    by (intros z Hz; now apply drop_none_In).
  apply drop_none_In in Hv0.
  destruct (drop_none y) as [|v l]; [destruct Hv0|].
  inversion Hall as [|? ? [c ->] Hl]; subst.
  destruct (min_from_int l Hl c) as [a [Ha [Hac Hmin]]].
  destruct (max_from_int l Hl c) as [b [Hb [Hcb Hmax]]].
  exists a, b. cbn [min_default max_default]. rewrite Ha, Hb.
  split; [reflexivity|]. split; [lia|].
  intros z Hz. apply Hmem in Hz. destruct Hz as [Hz|Hz].
  - inversion Hz; subst. lia.
  - split; [now apply Hmin|now apply Hmax].
Qed.

Lemma update_bar_xlim_int_bounds_witness :
  exists a b,
    update_bar_xlim [Some (Py.Int 4); None; Some (Py.Int (-2)); Some (Py.Int 9)]
    = (Some (Py.Int a), Some (Py.Int b)) /\
    a <= b /\
    forall z,
      In (Some (Py.Int z))
        [Some (Py.Int 4); None; Some (Py.Int (-2)); Some (Py.Int 9)] ->
      a <= z <= b.
Proof.
  apply (update_bar_xlim_int_bounds _ (Py.Int 4)).
  - intros v Hv. simpl in Hv.
    destruct Hv as [Hv|[Hv|[Hv|[Hv|[]]]]]; inversion Hv; eauto.
  - now left.
Defined.

(** ** Histogram runs *)

(** What a returning run went through: as many indices as samples were
    counted into [bins] zeros. *)
Lemma hist_data_inv
  (linspace : Py.num -> Py.num -> Z -> result (list Py.num))
  (a : Py.num) (rest histx : list Py.num) (bins : Z) (histy : list Z) :
  hist_data linspace (a :: rest) bins = Ok (histx, histy) ->
  exists data2,
    List.length data2 = List.length (a :: rest) /\
    count data2 (repeat 0 (Z.to_nat bins)) = Ok histy.
Proof.
  intros H. unfold hist_data, hist_data_with in H.
  cbn [Py.min Py.max bind] in H.
  destruct (comprehension _ (a :: rest)) as [data1|e] eqn:H1; cbn [bind] in H;
    [|discriminate].
  destruct (comprehension Py.int data1) as [data2|e] eqn:H2; cbn [bind] in H;
    [|discriminate].
  destruct (linspace _ _ bins) as [hx|e]; cbn [bind] in H; [|discriminate].
  destruct (count data2 _) as [hy|e] eqn:Hc; cbn [bind] in H; [|discriminate].
  inversion H; subst hx hy. exists data2. split; [|assumption].
  apply comprehension_length in H1, H2. congruence.
Qed.

(** X13.  Without a bucket there is nowhere to count: for [bins <= 0] a call on
    a non-empty sample never returns, it raises. *)
Theorem hist_data_no_bucket
  (linspace : Py.num -> Py.num -> Z -> result (list Py.num))
  (data : list Py.num) (bins : Z) :
  bins <= 0 -> data <> [] ->
  exists e, hist_data linspace data bins = Raise e.
Proof.
  intros Hbins Hne. destruct data as [|a rest]; [congruence|].
  destruct (hist_data linspace (a :: rest) bins) as [[histx histy]|e] eqn:H;
    [exfalso|now exists e].
  destruct (hist_data_inv _ _ _ _ _ _ H) as [data2 [Hlen Hc]].
  destruct (count_total _ _ _ Hc) as [Ht Hl].
  replace (Z.to_nat bins) with 0%nat in * by lia.
  cbn [repeat List.length total fold_right] in *.
  destruct histy; [|discriminate].
  cbn [total fold_right List.length] in *. lia.
Qed.

Lemma hist_data_no_bucket_witness :
  exists e, hist_data linspace_model [Py.Int 1; Py.Int 2] 0 = Raise e.
Proof.
  apply hist_data_no_bucket; [lia|discriminate].
Defined.

(** ** Float input *)

Lemma comprehension_total {A B : Type} (f : A -> result B) (l : list A) :
  (forall a, In a l -> exists b, f a = Ok b) ->
  exists bs, comprehension f l = Ok bs.
Proof.
  induction l as [|a l IH]; intros H; simpl; [now exists []|].
  destruct (H a (or_introl eq_refl)) as [b Hb].
  destruct IH as [bs Hbs]; [intros a' Ha'; apply H; now right|].
  exists (b :: bs). now rewrite Hb, Hbs.
Qed.

Lemma is_float_inv (a : Py.num) : is_float a = true -> exists f, a = Py.Float f.
Proof. destruct a; [discriminate|eauto]. Qed.

(** Dividing a float by a count between 1 and 2^53 does not raise. *)
Lemma truediv_float_count (f : Py.float) (n : Z) :
  1 <= n <= 2 ^ 53 -> exists q, Py.truediv (Py.Float f) (Py.Int n) = Ok (Py.Float q).
Proof.
  intros Hn.
  destruct (float_of_int_exact n) as [s [m [e [Hf _]]]]; [lia|lia|].
  unfold Py.truediv, Py.to_float. cbn [bind]. rewrite Hf. cbn [bind Py.is_zero].
  eauto.
Qed.

(** X8.  On float coordinates and a float width, with between 2 and 2^53 bars
    and as many heights, [bars] returns its polygons: no step raises. *)
Theorem bars_returns_on_floats (x y : list Py.num) (width minimum : Py.num) :
  Forall (fun xi => is_float xi = true) x ->
  is_float width = true ->
  (2 <= List.length x)%nat ->
  Z.of_nat (List.length x) <= 2 ^ 53 ->
  List.length y = List.length x ->
  exists xbar ybar,
    bars x y width minimum = Ok (xbar, ybar) /\
    List.length xbar = List.length x /\
    ybar = map (bar_y minimum) y.
Proof.
  intros Hx Hw Hlen Hmax Hy.
  destruct x as [|x0 xs] eqn:Ex; [simpl in Hlen; lia|]. rewrite <- Ex in *.
  assert (Hne : x <> []) by (rewrite Ex; discriminate).
  rewrite Forall_forall in Hx.
  assert (Hh : exists h, bin_size_half x width = Ok (Py.Float h)).
  { unfold bin_size_half. rewrite Ex. cbn [Py.max Py.min bind]. rewrite <- Ex.
    destruct (is_float_inv (Py.max_from x0 xs)) as [fM ->].
    { apply Hx. rewrite Ex. apply max_from_In. }
    destruct (is_float_inv (Py.min_from x0 xs)) as [fm ->].
    { apply Hx. rewrite Ex. apply min_from_In. }
    destruct (is_float_inv width Hw) as [fw ->].
    cbn [Py.sub Py.to_float bind].
    destruct (truediv_float_count (SFsub Py.prec Py.emax fM fm)
                (Z.of_nat (List.length x) - 1)) as [q Hq]; [lia|].
    rewrite Hq. cbn [bind Py.mul Py.to_float].
    apply truediv_float_count. change (2 ^ 53) with 9007199254740992. lia. }
  destruct Hh as [h Hh].
  destruct (comprehension_total (bar_x (Py.Float h)) x) as [xbar Hxbar].
  { intros xi Hxi. destruct (is_float_inv xi (Hx xi Hxi)) as [fi ->].
    unfold bar_x. cbn [Py.sub Py.add Py.to_float bind]. eauto. }
  exists xbar, (map (bar_y minimum) y).
  rewrite bars_spec by assumption. rewrite Hh. cbn [bind].
  rewrite bar_at_zip by assumption. rewrite Hxbar. cbn [bind].
  split; [reflexivity|]. split; [|reflexivity].
  eapply comprehension_length; eauto.
Qed.

Lemma bars_returns_on_floats_witness :
  exists xbar ybar,
    bars [Py.Float (Py.lit 1 2); Py.Float (Py.lit 3 2)]
         [Py.Int 5; Py.Int 7] (Py.Float (Py.lit 8 10)) (Py.Int 0)
    = Ok (xbar, ybar) /\
    List.length xbar
    = List.length [Py.Float (Py.lit 1 2); Py.Float (Py.lit 3 2)] /\
    ybar = map (bar_y (Py.Int 0)) [Py.Int 5; Py.Int 7].
Proof.
  apply bars_returns_on_floats.
  - repeat constructor.
  - reflexivity.
  - simpl. lia.
  - vm_compute. discriminate.
  - reflexivity.
Defined.

(** X7.  On a series whose values are all floats [update_bar_ylim] returns:
    no step raises, whatever the floats are. *)
Theorem update_bar_ylim_returns_on_floats (y : list (option Py.num)) :
  (forall v, In (Some v) y -> is_float v = true) ->
  exists lo hi,
    update_bar_ylim y = Ok (lo, hi) /\
    hi = snd (update_bar_xlim y).
Proof.
  intros Hfl.
  destruct (update_bar_xlim y) as [lo hi] eqn:Hlim.
  destruct (update_bar_xlim_cases y lo hi Hlim)
    as [[-> ->]|[a [b [-> [-> [Ha Hb]]]]]].
  - exists None, None. unfold update_bar_ylim. now rewrite Hlim.
  - destruct (is_float_inv a (Hfl a Ha)) as [fa ->].
    destruct (is_float_inv b (Hfl b Hb)) as [fb ->].
    rewrite (update_bar_ylim_unfold _ _ _ Hlim). unfold margin.
    cbn [Py.sub Py.to_float bind].
    destruct (truediv_float_count (SFsub Py.prec Py.emax fb fa) 20) as [q Hq].
    { change (2 ^ 53) with 9007199254740992. lia. }
    rewrite Hq. cbn [bind Py.sub Py.to_float]. eauto.
Qed.

Lemma update_bar_ylim_returns_on_floats_witness :
  exists lo hi,
    update_bar_ylim [Some (Py.Float (Py.lit 1 2)); None;
                     Some (Py.Float S754_nan)] = Ok (lo, hi) /\
    hi = snd (update_bar_xlim [Some (Py.Float (Py.lit 1 2)); None;
                               Some (Py.Float S754_nan)]).
Proof.
  apply update_bar_ylim_returns_on_floats.
  intros v Hv. simpl in Hv.
  destruct Hv as [Hv|[Hv|[Hv|[]]]]; inversion Hv; reflexivity.
Defined.

(** ** What each bucket counts *)

Lemma increment_bucket (l : list Z) (i : Z) :
  increment l i =
  match bucket (List.length l) i with
  | Some j => Ok (setitem l j (nth j l 0 + 1))
  | None => Raise IndexError
  end.
Proof.
  unfold increment, bucket.
  destruct ((_ <? 0) || (_ <=? _)) eqn:Hout; [reflexivity|].
  apply orb_false_elim in Hout. destruct Hout as [Hneg Hlen].
  apply Z.ltb_ge in Hneg. apply Z.leb_gt in Hlen.
  set (j := if i <? 0 then i + Z.of_nat (List.length l) else i) in *.
  unfold getitem.
  destruct (nth_error l (Z.to_nat j)) as [c|] eqn:Hc.
  - cbn [bind]. now rewrite (nth_error_nth _ _ 0 Hc).
  - apply nth_error_None in Hc. lia.
Qed.

Lemma nth_setitem (l : list Z) (j k : nat) (v : Z) :
  (j < List.length l)%nat ->
  nth k (setitem l j v) 0 = if Nat.eqb j k then v else nth k l 0.
Proof.
  revert j k. induction l as [|b l IH]; intros [|j] [|k] Hj; simpl in *;
    try lia; try reflexivity.
  apply IH. lia.
Qed.

Lemma length_setitem {A : Type} (l : list A) (j : nat) (v : A) :
  List.length (setitem l j v) = List.length l.
Proof.
  revert j. induction l as [|b l IH]; intros [|j]; simpl; auto.
Qed.

Lemma bucket_lt (len : nat) (i : Z) (j : nat) :
  bucket len i = Some j -> (j < len)%nat.
Proof.
  unfold bucket. destruct ((_ <? 0) || (_ <=? _)) eqn:Hout; [discriminate|].
  apply orb_false_elim in Hout. destruct Hout as [Hneg Hlen].
  apply Z.ltb_ge in Hneg. apply Z.leb_gt in Hlen.
  intros H. inversion H. lia.
Qed.

(** The counting loop adds to each place the number of indices that
    address it. *)
Lemma count_hits (indices : list Z) :
  forall histy histy',
    count indices histy = Ok histy' ->
    List.length histy' = List.length histy /\
    Forall (fun i => bucket (List.length histy) i <> None) indices /\
    forall j, nth j histy' 0 = nth j histy 0 + hits (List.length histy) indices j.
Proof.
  induction indices as [|i indices IH]; intros histy histy' H; simpl in H.
  - inversion H; subst. split; [reflexivity|]. split; [constructor|].
    intros j. unfold hits. simpl. lia.
  - rewrite increment_bucket in H.
    destruct (bucket (List.length histy) i) as [k|] eqn:Hb; [|discriminate].
    cbn [bind] in H. destruct (IH _ _ H) as [Hl [Hall Hn]].
    rewrite length_setitem in Hl, Hall, Hn.
    split; [assumption|]. split.
    + constructor; [congruence|assumption].
    + intros j. rewrite Hn, nth_setitem by (eapply bucket_lt; eauto).
      unfold hits. cbn [filter]. rewrite Hb.
      destruct (Nat.eqb_spec k j) as [->|Hne]; cbn [List.length]; lia.
Qed.

(** X11.  Whenever [hist_data] returns on a non-empty sample, every sample has
    got an index that addresses one of the [bins] counts, and each count
    is the number of samples whose index addresses it. *)
Theorem hist_data_bucket_counts
  (linspace : Py.num -> Py.num -> Z -> result (list Py.num))
  (data histx : list Py.num) (bins : Z) (histy : list Z) :
  data <> [] ->
  hist_data linspace data bins = Ok (histx, histy) ->
  exists indices,
    hist_indices data bins = Ok indices /\
    List.length indices = List.length data /\
    Forall (fun i => bucket (Z.to_nat bins) i <> None) indices /\
    forall j, nth j histy 0 = hits (Z.to_nat bins) indices j.
Proof.
  intros Hne H. destruct data as [|a rest]; [congruence|].
  unfold hist_data, hist_data_with in H. unfold hist_indices.
  cbn [Py.min Py.max bind] in *.
  destruct (comprehension _ (a :: rest)) as [data1|e] eqn:H1; cbn [bind] in *;
    [|discriminate].
  destruct (comprehension Py.int data1) as [data2|e] eqn:H2; cbn [bind] in H;
    [|discriminate].
  destruct (linspace _ _ bins) as [hx|e]; cbn [bind] in H; [|discriminate].
  destruct (count data2 _) as [hy|e] eqn:Hc; cbn [bind] in H; [|discriminate].
  inversion H; subst hx hy. exists data2.
  destruct (count_hits _ _ _ Hc) as [_ [Hall Hn]].
  rewrite repeat_length in Hall, Hn.
  split; [reflexivity|].
  split; [apply comprehension_length in H1, H2; congruence|].
  split; [assumption|].
  intros j. rewrite Hn.
  assert (Hz : nth j (repeat 0 (Z.to_nat bins)) 0 = 0).
  { generalize (Z.to_nat bins). intros n. revert j.
    induction n as [|n IHn]; intros [|j]; simpl; auto. }
  lia.
Qed.

Lemma hist_data_bucket_counts_witness :
  exists indices,
    hist_indices [Py.Int 1; Py.Int 2; Py.Int 3] 3 = Ok indices /\
    List.length indices = List.length [Py.Int 1; Py.Int 2; Py.Int 3] /\
    Forall (fun i => bucket (Z.to_nat 3) i <> None) indices /\
    forall j, nth j [1; 1; 1] 0 = hits (Z.to_nat 3) indices j.
Proof.
  apply (hist_data_bucket_counts linspace_model
           [Py.Int 1; Py.Int 2; Py.Int 3]
           [Py.Float (Py.lit 1 1); Py.Float (Py.lit 2 1); Py.Float (Py.lit 3 1)]
           3 [1; 1; 1]).
  - discriminate.
  - vm_compute. reflexivity.
Defined.

(** ** The bucket of the maximum *)

Lemma eqb_refl_or_nan (a : Py.num) :
  Py.eqb a a = true \/ a = Py.Float S754_nan.
Proof.
  destruct a as [z|[s|s| |s m e]]; unfold Py.eqb, Py.compare.
  - left. now rewrite Z.compare_refl.
  - left. reflexivity.
  - left. destruct s; reflexivity.
  - now right.
  - left. unfold SFcompare. rewrite Z.compare_refl.
    destruct s; now rewrite Pos.compare_cont_refl.
Qed.

(** A NaN sample cannot be normalised to anything but NaN. *)
Lemma normalise_nan (m M : Py.num) (bins : Z) (v : Py.num) :
  normalise Py.truediv m M bins (Py.Float S754_nan) = Ok v ->
  v = Py.Float S754_nan.
Proof.
  unfold normalise.
  assert (Hne : Py.neb (Py.Float S754_nan) M = true) by (destruct M; reflexivity).
  rewrite Hne.
  assert (Ha : forall r : Py.num -> result Py.num,
             (a <- Py.sub (Py.Float S754_nan) m ;; r a) = Ok v ->
             r (Py.Float S754_nan) = Ok v).
  { intros r. unfold Py.sub, Py.to_float. cbn [bind].
    destruct m as [z|f]; [destruct (Py.float_of_int z)|]; cbn [bind];
      [auto|discriminate|auto]. }
  intros H. apply Ha in H.
  destruct (Py.sub M m) as [b|e]; cbn [bind] in H; [|discriminate].
  unfold Py.truediv, Py.to_float in H. cbn [bind] in H.
  destruct b as [z|g]; [destruct (Py.float_of_int z) as [g|e]|];
    cbn [bind] in H; try discriminate;
    (destruct (Py.is_zero g); [discriminate|]; cbn [bind SFdiv] in H;
     unfold Py.mul, Py.to_float in H; cbn [bind] in H;
     destruct (Py.float_of_int bins); cbn [bind] in H; [|discriminate];
     now inversion H).
Qed.

Lemma Forall2_In_l {A B : Type} (R : A -> B -> Prop) (l : list A) (l' : list B)
  (a : A) :
  Forall2 R l l' -> In a l -> exists b, In b l' /\ R a b.
Proof.
  induction 1 as [|a0 b0 l l' HR _ IH]; intros Hin; [destruct Hin|].
  destruct Hin as [->|Hin].
  - exists b0. split; [now left|assumption].
  - destruct (IH Hin) as [b [Hb HR']]. exists b. split; [now right|assumption].
Qed.

Lemma hits_In (len : nat) (indices : list Z) (i : Z) (j : nat) :
  In i indices -> bucket len i = Some j -> 1 <= hits len indices j.
Proof.
  intros Hin Hb. unfold hits.
  assert (Hf : In i (filter (fun i => match bucket len i with
                                      | Some k => Nat.eqb k j
                                      | None => false
                                      end) indices)).
  { apply filter_In. split; [assumption|]. rewrite Hb. apply Nat.eqb_refl. }
  destruct (filter _ indices); [destruct Hf|]. cbn [List.length]. lia.
Qed.

(** A returning run, step by step. *)
Lemma hist_data_run
  (linspace : Py.num -> Py.num -> Z -> result (list Py.num))
  (a : Py.num) (rest histx : list Py.num) (bins : Z) (histy : list Z) :
  hist_data linspace (a :: rest) bins = Ok (histx, histy) ->
  exists data1 data2,
    Forall2 (fun el v =>
               normalise Py.truediv (Py.min_from a rest) (Py.max_from a rest)
                 bins el = Ok v) (a :: rest) data1 /\
    Forall2 (fun v i => Py.int v = Ok i) data1 data2 /\
    count data2 (repeat 0 (Z.to_nat bins)) = Ok histy.
Proof.
  intros H. unfold hist_data, hist_data_with in H.
  cbn [Py.min Py.max bind] in H.
  destruct (comprehension _ (a :: rest)) as [data1|e] eqn:H1; cbn [bind] in H;
    [|discriminate].
  destruct (comprehension Py.int data1) as [data2|e] eqn:H2; cbn [bind] in H;
    [|discriminate].
  destruct (linspace _ _ bins) as [hx|e]; cbn [bind] in H; [|discriminate].
  destruct (count data2 _) as [hy|e] eqn:Hc; cbn [bind] in H; [|discriminate].
  inversion H; subst hx hy. exists data1, data2.
  split; [now apply comprehension_Forall2|].
  split; [now apply comprehension_Forall2|assumption].
Qed.

(** X12.  Whenever [hist_data] returns on a non-empty sample with at least one
    bucket, the maximum has been counted in the last bucket: the count at
    index [bins - 1] is at least 1. *)
Theorem hist_data_last_bucket_not_empty
  (linspace : Py.num -> Py.num -> Z -> result (list Py.num))
  (data histx : list Py.num) (bins : Z) (histy : list Z) :
  data <> [] -> 1 <= bins ->
  hist_data linspace data bins = Ok (histx, histy) ->
  1 <= nth (Z.to_nat (bins - 1)) histy 0.
Proof.
  intros Hne Hbins H. destruct data as [|a rest]; [congruence|].
  destruct (hist_data_run _ _ _ _ _ _ H) as [data1 [data2 [H1 [H2 Hc]]]].
  destruct (count_hits _ _ _ Hc) as [_ [_ Hn]].
  rewrite repeat_length in Hn. rewrite Hn.
  assert (Hz : nth (Z.to_nat (bins - 1)) (repeat 0 (Z.to_nat bins)) 0 = 0).
  { generalize (Z.to_nat (bins - 1)) as j. generalize (Z.to_nat bins) as n.
    induction n as [|n IHn]; intros [|j]; simpl; auto. }
  rewrite Hz.
  pose proof (max_from_In rest a) as HM.
  destruct (Forall2_In_l _ _ _ _ H1 HM) as [v [Hv Hnorm]].
  destruct (Forall2_In_l _ _ _ _ H2 Hv) as [i [Hi Hint]].
  assert (Hidx : i = bins - 1).
  { destruct (eqb_refl_or_nan (Py.max_from a rest)) as [Heq|Hnan].
    - unfold normalise, Py.neb in Hnorm. rewrite Heq in Hnorm.
      cbn [negb Py.sub] in Hnorm. inversion Hnorm; subst v.
      cbn [Py.int] in Hint. now inversion Hint.
    - rewrite Hnan in Hnorm. apply normalise_nan in Hnorm. subst v.
      discriminate. }
  subst i.
  enough (1 <= hits (Z.to_nat bins) data2 (Z.to_nat (bins - 1))) by lia.
  eapply hits_In; [eassumption|].
  unfold bucket.
  destruct (Z.ltb_spec (bins - 1) 0); [lia|].
  destruct (Z.ltb_spec (bins - 1) 0); [lia|].
  destruct (Z.leb_spec (Z.of_nat (Z.to_nat bins)) (bins - 1)); [lia|].
  reflexivity.
Qed.

Lemma hist_data_last_bucket_not_empty_witness :
  1 <= nth (Z.to_nat (3 - 1)) [1; 1; 1] 0.
Proof.
  apply (hist_data_last_bucket_not_empty linspace_model
           [Py.Int 1; Py.Int 2; Py.Int 3]
           [Py.Float (Py.lit 1 1); Py.Float (Py.lit 2 1); Py.Float (Py.lit 3 1)]
           3 [1; 1; 1]).
  - discriminate.
  - lia.
  - vm_compute. reflexivity.
Defined.

(** X14.  A sample that holds a NaN never gets its histogram: the call raises. *)
Theorem hist_data_nan_raises
  (linspace : Py.num -> Py.num -> Z -> result (list Py.num))
  (data : list Py.num) (bins : Z) :
  In (Py.Float S754_nan) data ->
  exists e, hist_data linspace data bins = Raise e.
Proof.
  intros Hin. destruct data as [|a rest]; [destruct Hin|].
  destruct (hist_data linspace (a :: rest) bins) as [[histx histy]|e] eqn:H;
    [exfalso|now exists e].
  destruct (hist_data_run _ _ _ _ _ _ H) as [data1 [data2 [H1 [H2 _]]]].
  destruct (Forall2_In_l _ _ _ _ H1 Hin) as [v [Hv Hnorm]].
  destruct (Forall2_In_l _ _ _ _ H2 Hv) as [i [_ Hint]].
  apply normalise_nan in Hnorm. subst v. discriminate.
Qed.

Lemma hist_data_nan_raises_witness :
  exists e,
    hist_data linspace_model
      [Py.Float (Py.lit 1 1); Py.Float S754_nan; Py.Float (Py.lit 2 1)] 10
    = Raise e.
Proof.
  apply hist_data_nan_raises. right. now left.
Defined.

(** ** Missing heights *)

Lemma comprehension_first_failure {A B : Type} (f : A -> result B)
  (l1 l2 : list A) (a : A) (e : exn) :
  (forall a', In a' l1 -> exists b, f a' = Ok b) ->
  f a = Raise e ->
  comprehension f (l1 ++ a :: l2) = Raise e.
Proof.
  induction l1 as [|a1 l1 IH]; intros Hok Hfail; simpl.
  - now rewrite Hfail.
  - destruct (Hok a1 (or_introl eq_refl)) as [b Hb]. rewrite Hb. cbn [bind].
    rewrite IH; [reflexivity| |assumption].
    intros a' Ha'. apply Hok. now right.
Qed.

Lemma bin_size_half_float (x : list Py.num) (width : Py.num) :
  Forall (fun xi => is_float xi = true) x ->
  is_float width = true ->
  (2 <= List.length x)%nat ->
  Z.of_nat (List.length x) <= 2 ^ 53 ->
  exists h, bin_size_half x width = Ok (Py.Float h).
Proof.
  intros Hx Hw Hlen Hmax.
  destruct x as [|x0 xs] eqn:Ex; [simpl in Hlen; lia|]. rewrite <- Ex in *.
  rewrite Forall_forall in Hx.
  unfold bin_size_half. rewrite Ex. cbn [Py.max Py.min bind]. rewrite <- Ex.
  destruct (is_float_inv (Py.max_from x0 xs)) as [fM ->].
  { apply Hx. rewrite Ex. apply max_from_In. }
  destruct (is_float_inv (Py.min_from x0 xs)) as [fm ->].
  { apply Hx. rewrite Ex. apply min_from_In. }
  destruct (is_float_inv width Hw) as [fw ->].
  cbn [Py.sub Py.to_float bind].
  destruct (truediv_float_count (SFsub Py.prec Py.emax fM fm)
              (Z.of_nat (List.length x) - 1)) as [q Hq]; [lia|].
  rewrite Hq. cbn [bind Py.mul Py.to_float].
  apply truediv_float_count. change (2 ^ 53) with 9007199254740992. lia.
Qed.

(** X9.  On float coordinates and a float width, with between 2 and 2^53 bars
    and fewer heights than bars, [bars] raises the index error of the
    first missing height. *)
Theorem bars_missing_height (x y : list Py.num) (width minimum : Py.num) :
  Forall (fun xi => is_float xi = true) x ->
  is_float width = true ->
  (2 <= List.length x)%nat ->
  Z.of_nat (List.length x) <= 2 ^ 53 ->
  (List.length y < List.length x)%nat ->
  bars x y width minimum = Raise IndexError.
Proof.
  intros Hx Hw Hlen Hmax Hy.
  destruct (bin_size_half_float x width Hx Hw Hlen Hmax) as [h Hh].
  rewrite bars_spec by (intros ->; simpl in Hlen; lia).
  rewrite Hh. cbn [bind].
  rewrite Forall_forall in Hx.
  assert (Hbar : forall i, (i < List.length x)%nat ->
                   exists xi px, nth_error x i = Some xi /\
                                 bar_x (Py.Float h) xi = Ok px).
  { intros i Hi. destruct (nth_error x i) as [xi|] eqn:Hxi;
      [|apply nth_error_None in Hxi; lia].
    destruct (is_float_inv xi (Hx xi (nth_error_In _ _ Hxi))) as [fi ->].
    eexists. eexists. split; [reflexivity|].
    unfold bar_x. cbn [Py.sub Py.add Py.to_float bind]. reflexivity. }
  replace (List.length x)
    with (List.length y + S (List.length x - S (List.length y)))%nat by lia.
  rewrite seq_app. cbn [seq Nat.add].
  rewrite (comprehension_first_failure _ _ _ _ IndexError); [reflexivity| |].
  - intros i Hi. apply in_seq in Hi.
    destruct (Hbar i) as [xi [px [Hxi Hpx]]]; [lia|].
    destruct (nth_error y i) as [yi|] eqn:Hyi;
      [|apply nth_error_None in Hyi; lia].
    unfold bar_at, getitem. rewrite Hxi. cbn [bind]. rewrite Hpx. cbn [bind].
    rewrite Hyi. cbn [bind]. eauto.
  - destruct (Hbar (List.length y)) as [xi [px [Hxi Hpx]]]; [lia|].
    unfold bar_at, getitem. rewrite Hxi. cbn [bind]. rewrite Hpx. cbn [bind].
    now rewrite (proj2 (nth_error_None y (List.length y)) (Nat.le_refl _)).
Qed.

Lemma bars_missing_height_witness :
  bars [Py.Float (Py.lit 1 2); Py.Float (Py.lit 3 2); Py.Float (Py.lit 5 2)]
       [Py.Int 5] (Py.Float (Py.lit 8 10)) (Py.Int 0)
  = Raise IndexError.
Proof.
  apply bars_missing_height.
  - repeat constructor.
  - reflexivity.
  - simpl. lia.
  - vm_compute. discriminate.
  - simpl. lia.
Defined.

(** * The command line *)

(** ** Splitting at a character *)

Lemma split_on_length (sep : ascii) (s : string) :
  List.length (split_on sep s) = S (count_char sep s).
Proof.
  induction s as [|c s IH]; [reflexivity|]. cbn [split_on count_char].
  destruct (Ascii.eqb c sep); cbn [List.length Nat.add].
  - now rewrite IH.
  - destruct (split_on sep s); [discriminate|]. exact IH.
Qed.

Lemma split_on_none (sep : ascii) (s : string) :
  count_char sep s = 0%nat -> split_on sep s = [s].
Proof.
  induction s as [|c s IH]; [reflexivity|]. cbn [split_on count_char].
  destruct (Ascii.eqb c sep); [discriminate|]. cbn [Nat.add].
  intros H. now rewrite IH.
Qed.

(** Splitting a text that was joined with the separator gives the first
    part, free of the separator, and the split of the rest. *)
Lemma split_on_join (sep : ascii) (p q : string) :
  count_char sep p = 0%nat ->
  split_on sep (p ++ String sep q) = p :: split_on sep q.
Proof.
  induction p as [|c p IH]; cbn [String.append split_on count_char].
  - intros _. now rewrite Ascii.eqb_refl.
  - destruct (Ascii.eqb c sep); [discriminate|]. cbn [Nat.add].
    intros H. now rewrite IH.
Qed.

Section SplitColumns.

Variable int_of_str : string -> result Z.

(** X15.  Two numbers written with a comma between them are accepted: the
    column pair is one less than each number, the plot size is the
    numbers themselves, and nothing is printed. *)
Theorem split_columns_accepts (p q : string) (a b : Z) :
  count_char "," p = 0%nat -> count_char "," q = 0%nat ->
  int_of_str p = Ok a -> int_of_str q = Ok b ->
  _split_columns int_of_str (p ++ String "," q) = ([], Ok (a - 1, b - 1)) /\
  _plot_size int_of_str (p ++ String "," q) = ([], Ok (a, b)).
Proof.
  intros Hp Hq Ha Hb. unfold _split_columns, _plot_size.
  rewrite split_on_join, (split_on_none _ q) by assumption.
  unfold unpack_pair. rewrite Ha, Hb. cbn [bind fst snd]. split; reflexivity.
Qed.

(** [int] applied to a string raises nothing but [ValueError]. *)
Hypothesis int_of_str_raises :
  forall s e, int_of_str s = Raise e -> e = ValueError.

Lemma unpack_pair_outcome (parts : list string) :
  (exists p q a b,
      parts = [p; q] /\ int_of_str p = Ok a /\ int_of_str q = Ok b /\
      unpack_pair int_of_str parts = Ok (a, b)) \/
  (unpack_pair int_of_str parts = Raise ValueError /\
   forall p q a b,
     parts = [p; q] -> int_of_str p = Ok a -> int_of_str q = Ok b -> False).
Proof.
  unfold unpack_pair.
  destruct parts as [|p0 [|p1 [|p2 parts]]].
  - right. split; [reflexivity|]. discriminate.
  - right. split; [|discriminate].
    destruct (int_of_str p0) as [a|e] eqn:Ha; cbn [bind]; [reflexivity|].
    now rewrite (int_of_str_raises _ _ Ha).
  - destruct (int_of_str p0) as [a|e] eqn:Ha; cbn [bind].
    + destruct (int_of_str p1) as [b|e] eqn:Hb; cbn [bind].
      * left. exists p0, p1, a, b. repeat split; assumption.
      * right. rewrite (int_of_str_raises _ _ Hb). split; [reflexivity|].
        intros p q a' b' Heq _ Hq. inversion Heq; subst. congruence.
    + right. rewrite (int_of_str_raises _ _ Ha). split; [reflexivity|].
      intros p q a' b' Heq Hp _. inversion Heq; subst. congruence.
  - right. split; [|discriminate].
    destruct (int_of_str p0) as [a|e] eqn:Ha; cbn [bind];
      [|now rewrite (int_of_str_raises _ _ Ha)].
    destruct (int_of_str p1) as [b|e] eqn:Hb; cbn [bind];
      [|now rewrite (int_of_str_raises _ _ Hb)].
    destruct (int_of_str p2) as [c|e] eqn:Hc; cbn [bind];
      [reflexivity|now rewrite (int_of_str_raises _ _ Hc)].
Qed.

(** X16.  [_split_columns] either returns, without printing, the pair one less
    than the two numbers that the text holds around its single comma, or
    prints its message once and raises [ValueError]; a text with no comma
    or with several is always refused. *)
Theorem split_columns_outcome (x : string) :
  ((exists p q a b,
       split_on "," x = [p; q] /\
       int_of_str p = Ok a /\ int_of_str q = Ok b /\
       _split_columns int_of_str x = ([], Ok (a - 1, b - 1))) \/
   _split_columns int_of_str x
   = ([[Text columns_message; Error ValueError]], Raise ValueError)) /\
  (count_char "," x <> 1%nat ->
   _split_columns int_of_str x
   = ([[Text columns_message; Error ValueError]], Raise ValueError)).
Proof.
  unfold _split_columns.
  destruct (unpack_pair_outcome (split_on "," x))
    as [[p [q [a [b [Hs [Ha [Hb Hu]]]]]]]|[Hu Hno]].
  - rewrite Hu. cbn [bind fst snd]. split.
    + left. exists p, q, a, b. repeat split; assumption.
    + intros Hc. exfalso. apply Hc.
      pose proof (split_on_length "," x) as Hl. rewrite Hs in Hl.
      simpl in Hl. lia.
  - rewrite Hu. cbn [bind]. split; [now right|reflexivity].
Qed.

End SplitColumns.

Lemma decimal_raises (s : string) (e : exn) :
  decimal s = Raise e -> e = ValueError.
Proof.
  unfold decimal. destruct s as [|c s]; [now inversion 1|].
  generalize 0. generalize (String c s). clear c s.
  induction s as [|c s IH]; intros acc; simpl; [discriminate|].
  destruct (digit_value c); [apply IH|now inversion 1].
Qed.

Lemma split_columns_accepts_witness :
  _split_columns decimal "2,1" = ([], Ok (2 - 1, 1 - 1)) /\
  _plot_size decimal "2,1" = ([], Ok (2, 1)).
Proof.
  apply (split_columns_accepts decimal "2" "1" 2 1); reflexivity.
Defined.

Lemma split_columns_outcome_witness :
  _split_columns decimal "1,2,3"
  = ([[Text columns_message; Error ValueError]], Raise ValueError).
Proof.
  apply (split_columns_outcome decimal decimal_raises "1,2,3").
  vm_compute. discriminate.
Defined.

(** ** Tables *)

Lemma tbl_get_set {V : Type} (d : table V) (k k' : Z) (v : V) :
  tbl_get (tbl_set d k v) k' = if Z.eqb k' k then Some v else tbl_get d k'.
Proof.
  induction d as [|[k0 v0] d IH]; simpl.
  - destruct (Z.eqb k' k); reflexivity.
  - destruct (Z.eqb_spec k k0) as [->|Hne]; simpl.
    + destruct (Z.eqb_spec k' k0); reflexivity.
    + rewrite IH. destruct (Z.eqb_spec k' k0) as [->|Hne'].
      * destruct (Z.eqb_spec k0 k); [congruence|reflexivity].
      * reflexivity.
Qed.

Lemma tbl_default_set_same {A : Type} (d : table (list A)) (k : Z)
  (v : list A) :
  tbl_default (tbl_set d k v) k = v.
Proof. unfold tbl_default. now rewrite tbl_get_set, Z.eqb_refl. Qed.

Lemma tbl_default_set_other {A : Type} (d : table (list A)) (k k' : Z)
  (v : list A) :
  k' <> k -> tbl_default (tbl_set d k v) k' = tbl_default d k'.
Proof.
  intros Hne. unfold tbl_default. rewrite tbl_get_set.
  destruct (Z.eqb_spec k' k); [congruence|reflexivity].
Qed.

(** Writing a column that precedes no entry of the same index replaces
    it where it stands. *)
Lemma tbl_set_middle {V : Type} (pre post : table V) (k : Z) (v v' : V) :
  ~ In k (map fst pre) ->
  tbl_set (pre ++ (k, v) :: post) k v' = pre ++ (k, v') :: post.
Proof.
  induction pre as [|[k0 v0] pre IH]; simpl; intros Hnotin.
  - now rewrite Z.eqb_refl.
  - destruct (Z.eqb_spec k k0) as [->|Hne]; [exfalso; apply Hnotin; now left|].
    rewrite IH; [reflexivity|]. intros Hin. apply Hnotin. now right.
Qed.

Lemma getitem_z_ok {A : Type} (l : list A) (i : Z) (v : A) :
  getitem_z l i = Ok v <->
  exists j, bucket (List.length l) i = Some j /\ nth_error l j = Some v.
Proof.
  unfold getitem_z, getitem. split.
  - destruct (bucket (List.length l) i) as [j|]; [|discriminate].
    destruct (nth_error l j) as [a|] eqn:Ha; [|discriminate].
    intros H. inversion H; subst. eauto.
  - intros [j [Hb Hn]]. now rewrite Hb, Hn.
Qed.

Lemma getitem_z_total {A : Type} (l : list A) (i : Z) :
  bucket (List.length l) i <> None -> exists v, getitem_z l i = Ok v.
Proof.
  intros Hb. unfold getitem_z, getitem.
  destruct (bucket (List.length l) i) as [j|] eqn:Hj; [|congruence].
  apply bucket_lt in Hj.
  destruct (nth_error l j) as [a|] eqn:Ha; [eauto|].
  apply nth_error_None in Ha. lia.
Qed.

(** ** Reading the columns *)

Section GetData.

Variable str_split : string -> option string -> result (list string).
Variable set_iter : list Z -> list Z.

(** Iterating a set yields each of its elements once. *)
Hypothesis set_iter_NoDup : forall l, NoDup (set_iter l).
Hypothesis set_iter_In : forall l i, In i (set_iter l) <-> In i l.

Lemma append_fields_spec (fields : list string) (idx : list Z) :
  NoDup idx ->
  forall d d',
    append_fields fields idx d = Ok d' ->
    (forall i, In i idx ->
       exists v, getitem_z fields i = Ok v /\
                 tbl_default d' i = tbl_default d i ++ [Field v]) /\
    (forall i, ~ In i idx -> tbl_default d' i = tbl_default d i).
Proof.
  induction 1 as [|i0 idx Hnotin Hnd IH]; intros d d' H; simpl in H.
  - inversion H; subst. split; [intros i []|reflexivity].
  - destruct (getitem_z fields i0) as [v0|e] eqn:Hv; cbn [bind] in H;
      [|discriminate].
    destruct (IH _ _ H) as [Hin Hout]. split.
    + intros i [->|Hi].
      * exists v0. split; [assumption|].
        rewrite (Hout i Hnotin). apply tbl_default_set_same.
      * destruct (Hin i Hi) as [v [Hg Ht]]. exists v. split; [assumption|].
        rewrite Ht, tbl_default_set_other; [reflexivity|].
        intros ->. contradiction.
    + intros i Hi. rewrite Hout by (intros Hin'; apply Hi; now right).
      apply tbl_default_set_other. intros ->. apply Hi. now left.
Qed.

Lemma append_fields_total (fields : list string) (idx : list Z) :
  (forall i, In i idx -> bucket (List.length fields) i <> None) ->
  forall d, exists d', append_fields fields idx d = Ok d'.
Proof.
  induction idx as [|i0 idx IH]; intros Hb d; simpl; [eauto|].
  destruct (getitem_z_total fields i0) as [v Hv]; [apply Hb; now left|].
  rewrite Hv. cbn [bind]. apply IH. intros i Hi. apply Hb. now right.
Qed.

Lemma append_fields_inv (fields : list string) (idx : list Z) :
  forall d d',
    append_fields fields idx d = Ok d' ->
    forall i, In i idx -> bucket (List.length fields) i <> None.
Proof.
  induction idx as [|i0 idx IH]; intros d d' H i Hi; [destruct Hi|].
  simpl in H.
  destruct (getitem_z fields i0) as [v0|e] eqn:Hv; cbn [bind] in H;
    [|discriminate].
  destruct Hi as [->|Hi]; [|eapply IH; eauto].
  apply getitem_z_ok in Hv. destruct Hv as [j [Hj _]]. congruence.
Qed.

Lemma read_lines_spec (delimiter : option string) (idx : list Z)
  (lines : list string) :
  NoDup idx ->
  forall d d',
    read_lines str_split delimiter idx lines d = Ok d' ->
    (forall i, In i idx ->
       exists col, Forall2 (cell_of str_split delimiter i) lines col /\
                   tbl_default d' i = tbl_default d i ++ col) /\
    (forall i, ~ In i idx -> tbl_default d' i = tbl_default d i).
Proof.
  intros Hnd. induction lines as [|line lines IH]; intros d d' H; simpl in H.
  - inversion H; subst. split; [|reflexivity].
    intros i _. exists []. split; [constructor|now rewrite app_nil_r].
  - destruct (str_split line delimiter) as [fields|e] eqn:Hs; cbn [bind] in H;
      [|discriminate].
    destruct (append_fields fields idx d) as [d1|e] eqn:Ha; cbn [bind] in H;
      [|discriminate].
    destruct (append_fields_spec _ _ Hnd _ _ Ha) as [Hin1 Hout1].
    destruct (IH _ _ H) as [Hin Hout]. split.
    + intros i Hi. destruct (Hin1 i Hi) as [v [Hg Ht]].
      destruct (Hin i Hi) as [col [Hcol Ht']].
      exists (Field v :: col). split.
      * constructor; [|assumption]. exists fields, v. auto.
      * rewrite Ht', Ht, <- app_assoc. reflexivity.
    + intros i Hi. now rewrite (Hout i Hi), (Hout1 i Hi).
Qed.

(** X18.  Whenever [_get_data_from] returns, the column of every selected index
    holds, line after line, the field that the index addresses in the
    line (a negative index counting from the end of the line), so that
    every selected column has as many cells as lines were read; a column
    that was not selected reads as empty. *)
Theorem get_data_from_columns (file_descriptor : list string)
  (columns : list (list Z)) (delimiter : option string)
  (d : table (list cell)) :
  _get_data_from str_split set_iter file_descriptor columns delimiter = Ok d ->
  (forall i, In i (concat columns) ->
     Forall2 (cell_of str_split delimiter i) file_descriptor (tbl_default d i) /\
     List.length (tbl_default d i) = List.length file_descriptor) /\
  (forall i, ~ In i (concat columns) -> tbl_default d i = []).
Proof.
  unfold _get_data_from. intros H.
  destruct (read_lines_spec _ _ _ (set_iter_NoDup (concat columns)) _ _ H)
    as [Hin Hout].
  split.
  - intros i Hi. destruct (Hin i (proj2 (set_iter_In _ _) Hi)) as [col [Hc Ht]].
    cbn [tbl_default tbl_get app] in Ht. change (tbl_default d i = col) in Ht.
    rewrite Ht. split; [assumption|].
    symmetry. eapply Forall2_length; eauto.
  - intros i Hi. rewrite Hout; [reflexivity|].
    intros Hin'. apply Hi. now apply set_iter_In.
Qed.

(** X19.  [_get_data_from] returns exactly when every line can be split and
    every selected index addresses a field of every line. *)
Theorem get_data_from_returns_iff (file_descriptor : list string)
  (columns : list (list Z)) (delimiter : option string) :
  (exists d,
      _get_data_from str_split set_iter file_descriptor columns delimiter
      = Ok d) <->
  Forall (fun line =>
            exists fields,
              str_split line delimiter = Ok fields /\
              forall i, In i (concat columns) ->
                        bucket (List.length fields) i <> None)
    file_descriptor.
Proof.
  unfold _get_data_from. generalize (@nil (Z * list cell)) as d0.
  induction file_descriptor as [|line lines IH]; intros d0; simpl.
  - split; [constructor|eauto].
  - split.
    + intros [d H].
      destruct (str_split line delimiter) as [fields|e] eqn:Hs; cbn [bind] in H;
        [|discriminate].
      destruct (append_fields fields _ d0) as [d1|e] eqn:Ha; cbn [bind] in H;
        [|discriminate].
      constructor.
      * exists fields. split; [assumption|]. intros i Hi.
        eapply append_fields_inv; [eassumption|]. now apply set_iter_In.
      * apply (IH d1). eauto.
    + intros Hall. inversion Hall as [|? ? [fields [Hs Hb]] Hrest]; subst.
      rewrite Hs. cbn [bind].
      destruct (append_fields_total fields (set_iter (concat columns))) with (d := d0)
        as [d1 Hd1].
      { intros i Hi. apply Hb. now apply set_iter_In. }
      rewrite Hd1. cbn [bind]. apply IH. assumption.
Qed.

End GetData.

Lemma get_data_from_columns_witness :
  let lines := ["1,a,x"; "2,b,y"]%string in
  let d := [(-1, [Field "x"; Field "y"]); (0, [Field "1"; Field "2"])] in
  (forall i, In i (concat [[-1; 0]]) ->
     Forall2 (cell_of split_commas (Some ","%string) i) lines (tbl_default d i) /\
     List.length (tbl_default d i) = List.length lines) /\
  (forall i, ~ In i (concat [[-1; 0]]) -> tbl_default d i = []).
Proof.
  intros lines d.
  apply (get_data_from_columns split_commas set_order
           (fun l => NoDup_nodup Z.eq_dec l)
           (fun l i => nodup_In Z.eq_dec l i)
           lines [[-1; 0]] (Some ","%string) d).
  reflexivity.
Defined.

Lemma get_data_from_returns_iff_witness :
  (exists d,
      _get_data_from split_commas set_order ["1,a"; "2"]%string [[0; 1]] None
      = Ok d) <->
  Forall (fun line =>
            exists fields,
              split_commas line None = Ok fields /\
              forall i, In i (concat [[0; 1]]) ->
                        bucket (List.length fields) i <> None)
    ["1,a"; "2"]%string.
Proof.
  apply (get_data_from_returns_iff split_commas set_order
           (fun l i => nodup_In Z.eq_dec l i)).
Defined.

(** ** Converting the columns *)

Section PostProcess.

Variable float_of_str : string -> result Py.float.
Variable set_iter : list Z -> list Z.

Hypothesis set_iter_NoDup : forall l, NoDup (set_iter l).
Hypothesis set_iter_In : forall l i, In i (set_iter l) <-> In i l.

Lemma Forall2_converted_keys (items items' : table (list cell)) :
  Forall2 (converted float_of_str) items items' -> map fst items' = map fst items.
Proof.
  induction 1 as [|[k v] [k' v'] l l' [Hk _] _ IH]; simpl in *; congruence.
Qed.

Lemma post_process_all_floats_loop_ok (plot_type : string)
  (items items' : table (list cell)) :
  Forall2 (converted float_of_str) items items' ->
  forall pre,
    NoDup (map fst (pre ++ items)) ->
    _post_process_all_floats_loop float_of_str plot_type items (pre ++ items)
    = (pre ++ items', ([], Ok tt)).
Proof.
  induction 1 as [|[k v] [k' v'] items items' [Hk Hv] _ IH]; intros pre Hnd.
  - reflexivity.
  - cbn [fst snd] in Hk, Hv. subst k'.
    cbn [_post_process_all_floats_loop]. rewrite Hv.
    rewrite map_app in Hnd. cbn [map fst] in Hnd.
    rewrite tbl_set_middle
      by (intros Hin; apply NoDup_remove_2 in Hnd; apply Hnd;
          apply in_or_app; now left).
    change (pre ++ (k, v') :: items) with (pre ++ [(k, v')] ++ items).
    change (pre ++ (k, v') :: items') with (pre ++ [(k, v')] ++ items').
    rewrite !app_assoc. apply IH.
    rewrite <- app_assoc, map_app. exact Hnd.
Qed.

Lemma post_process_all_floats_loop_fails (plot_type : string)
  (good good' post : table (list cell)) (k : Z) (v : list cell) :
  Forall2 (converted float_of_str) good good' ->
  convert float_of_str v = Raise ValueError ->
  forall pre,
    NoDup (map fst (pre ++ good ++ (k, v) :: post)) ->
    _post_process_all_floats_loop float_of_str plot_type
      (good ++ (k, v) :: post) (pre ++ good ++ (k, v) :: post)
    = (pre ++ good' ++ (k, v) :: post,
       ([[Text "All elements of a"; Text plot_type; Text "plot must numbers."];
         [Text "Cannot convert elements of column"; Number (k + 1);
          Text "to float.

"]],
        Raise ValueError)).
Proof.
  intros Hgood Hbad.
  induction Hgood as [|[k0 v0] [k0' v0'] good good' [Hk Hv] _ IH]; intros pre Hnd.
  - cbn [app _post_process_all_floats_loop]. now rewrite Hbad.
  - cbn [fst snd] in Hk, Hv. subst k0'.
    cbn [app _post_process_all_floats_loop]. rewrite Hv.
    rewrite map_app in Hnd. cbn [app map fst] in Hnd.
    rewrite tbl_set_middle
      by (intros Hin; apply NoDup_remove_2 in Hnd; apply Hnd;
          apply in_or_app; now left).
    change (pre ++ (k0, v0') :: good ++ (k, v) :: post)
      with (pre ++ [(k0, v0')] ++ good ++ (k, v) :: post).
    change (pre ++ (k0, v0') :: good' ++ (k, v) :: post)
      with (pre ++ [(k0, v0')] ++ good' ++ (k, v) :: post).
    rewrite !(app_assoc pre). apply IH.
    rewrite <- app_assoc, map_app. exact Hnd.
Qed.

(** X21.  When every column converts, [_post_process_all_floats] replaces each
    column by its floats, keeping the indices and their order, prints
    nothing and returns. *)
Theorem post_process_all_floats_converts (columns columns' : table (list cell))
  (plot_type : string) :
  NoDup (map fst columns) ->
  Forall2 (converted float_of_str) columns columns' ->
  _post_process_all_floats float_of_str columns plot_type
  = (columns', ([], Ok tt)).
Proof.
  intros Hnd Hall. unfold _post_process_all_floats.
  exact (post_process_all_floats_loop_ok plot_type _ _ Hall [] Hnd).
Qed.

(** X22.  When a column holds a cell that is no number, the columns before it
    are already converted and stay so, the column and those after it are
    left as they were, two lines are printed that name the plot type and
    the column, counted from 1, and [ValueError] is raised again. *)
Theorem post_process_all_floats_stops (good good' post : table (list cell))
  (k : Z) (v : list cell) (plot_type : string) :
  NoDup (map fst (good ++ (k, v) :: post)) ->
  Forall2 (converted float_of_str) good good' ->
  convert float_of_str v = Raise ValueError ->
  _post_process_all_floats float_of_str (good ++ (k, v) :: post) plot_type
  = (good' ++ (k, v) :: post,
     ([[Text "All elements of a"; Text plot_type; Text "plot must numbers."];
       [Text "Cannot convert elements of column"; Number (k + 1);
        Text "to float.

"]],
      Raise ValueError)).
Proof.
  intros Hnd Hgood Hbad. unfold _post_process_all_floats.
  exact (post_process_all_floats_loop_fails plot_type _ _ _ _ _ Hgood Hbad [] Hnd).
Qed.

Lemma post_process_bar_loop_spec (idx : list Z) :
  NoDup idx ->
  forall columns final out r,
    _post_process_bar_loop float_of_str idx columns = (final, (out, r)) ->
    (forall j, ~ In j idx -> tbl_get final j = tbl_get columns j) /\
    (r = Ok tt ->
     out = [] /\
     forall i, In i idx ->
       convert float_of_str (tbl_default columns i) = Ok (tbl_default final i)).
Proof.
  induction 1 as [|i0 idx Hnotin Hnd IH]; intros columns final out r H;
    cbn [_post_process_bar_loop] in H.
  - inversion H; subst. split; [reflexivity|]. intros _.
    split; [reflexivity|]. intros i [].
  - destruct (convert float_of_str (tbl_default columns i0)) as [v'|e] eqn:Hc.
    + destruct (IH _ _ _ _ H) as [Hout Hok]. split.
      * intros j Hj. rewrite Hout by (intros Hin; apply Hj; now right).
        rewrite tbl_get_set.
        destruct (Z.eqb_spec j i0) as [->|_]; [|reflexivity].
        exfalso. apply Hj. now left.
      * intros Hr. destruct (Hok Hr) as [Hprinted Hconv].
        split; [assumption|]. intros i [->|Hi].
        -- unfold tbl_default at 2. rewrite (Hout i Hnotin), tbl_get_set, Z.eqb_refl.
           assumption.
        -- rewrite <- (Hconv i Hi).
           rewrite tbl_default_set_other; [reflexivity|].
           intros ->. contradiction.
    + destruct e; inversion H; subst; (split; [reflexivity|discriminate]).
Qed.

(** X23.  [_post_process_bar] never touches a column that is not the second of
    a pair: the x values stay the texts that were read.  When it returns,
    it has printed nothing and every column that is the second of a pair
    holds the floats of its cells. *)
Theorem post_process_bar_converts_heights (columns final : table (list cell))
  (pairs : list (Z * Z)) (out : printed) (r : result unit) :
  _post_process_bar float_of_str set_iter columns pairs = (final, (out, r)) ->
  (forall j, ~ In j (map snd pairs) -> tbl_get final j = tbl_get columns j) /\
  (r = Ok tt ->
   out = [] /\
   forall i, In i (map snd pairs) ->
     convert float_of_str (tbl_default columns i) = Ok (tbl_default final i)).
Proof.
  unfold _post_process_bar. intros H.
  destruct (post_process_bar_loop_spec _ (set_iter_NoDup (map snd pairs))
              _ _ _ _ H) as [Hout Hok].
  split.
  - intros j Hj. apply Hout. intros Hin. apply Hj. now apply set_iter_In.
  - intros Hr. destruct (Hok Hr) as [Hp Hc]. split; [assumption|].
    intros i Hi. apply Hc. now apply set_iter_In.
Qed.

End PostProcess.

Lemma post_process_all_floats_converts_witness :
  _post_process_all_floats decimal_float
    [(0, [Field "1"; Field "2"]); (1, [Field "3"; Field "4"])] "scatter"
  = ([(0, [Parsed (Py.lit 1 1); Parsed (Py.lit 2 1)]);
      (1, [Parsed (Py.lit 3 1); Parsed (Py.lit 4 1)])], ([], Ok tt)).
Proof.
  apply post_process_all_floats_converts.
  - repeat constructor; simpl; intuition discriminate.
  - repeat constructor; vm_compute; reflexivity.
Defined.

Lemma post_process_all_floats_stops_witness :
  _post_process_all_floats decimal_float
    ([(0, [Field "1"])] ++ (1, [Field "2"; Field "x"]) :: [(2, [Field "3"])])
    "line"
  = ([(0, [Parsed (Py.lit 1 1)])] ++ (1, [Field "2"; Field "x"])
       :: [(2, [Field "3"])],
     ([[Text "All elements of a"; Text "line"; Text "plot must numbers."];
       [Text "Cannot convert elements of column"; Number (1 + 1);
        Text "to float.

"]],
      Raise ValueError)).
Proof.
  apply post_process_all_floats_stops.
  - repeat constructor; simpl; intuition discriminate.
  - repeat constructor; vm_compute; reflexivity.
  - vm_compute. reflexivity.
Defined.

Lemma post_process_bar_converts_heights_witness :
  let columns := [(0, [Field "a"; Field "b"]); (1, [Field "2"; Field "3"])] in
  let final := [(0, [Field "a"; Field "b"]);
                (1, [Parsed (Py.lit 2 1); Parsed (Py.lit 3 1)])] in
  (forall j, ~ In j (map snd [(0, 1)]) -> tbl_get final j = tbl_get columns j) /\
  (Ok tt = Ok tt ->
   @nil (list item) = [] /\
   forall i, In i (map snd [(0, 1)]) ->
     convert decimal_float (tbl_default columns i) = Ok (tbl_default final i)).
Proof.
  intros columns final.
  apply (post_process_bar_converts_heights decimal_float set_order
           (fun l => NoDup_nodup Z.eq_dec l)
           (fun l i => nodup_In Z.eq_dec l i)
           columns final [(0, 1)] [] (Ok tt)).
  vm_compute. reflexivity.
Defined.

(** ** Column numbers *)

Lemma bucket_nonneg (len : nat) (i : Z) :
  0 <= i -> bucket len i = if i <? Z.of_nat len then Some (Z.to_nat i) else None.
Proof.
  intros Hi. unfold bucket.
  destruct (Z.ltb_spec i 0); [lia|].
  destruct (Z.ltb_spec i 0); [lia|]. cbn [orb].
  destruct (Z.leb_spec (Z.of_nat len) i), (Z.ltb_spec i (Z.of_nat len));
    try lia; reflexivity.
Qed.

Lemma bucket_minus_one (len : nat) :
  bucket len (-1) = if Nat.eqb len 0 then None else Some (len - 1)%nat.
Proof.
  unfold bucket. cbn [Z.ltb Z.compare].
  destruct (Nat.eqb_spec len 0) as [->|Hne]; [reflexivity|].
  destruct (Z.ltb_spec (-1 + Z.of_nat len) 0); [lia|].
  destruct (Z.leb_spec (Z.of_nat len) (-1 + Z.of_nat len)); [lia|].
  cbn [orb]. f_equal. lia.
Qed.

Section ColumnNumbers.

Variable str_split : string -> option string -> result (list string).
Variable set_iter : list Z -> list Z.

Hypothesis set_iter_NoDup : forall l, NoDup (set_iter l).
Hypothesis set_iter_In : forall l i, In i (set_iter l) <-> In i l.

(** X20.  In what [_get_data_from] returns, the cell of a line in the column of
    a selected index [i >= 0] is the field of that line at position [i],
    counted from 0, and in the column of index [-1] (column number 0 on
    the command line) it is the last field of the line. *)
Theorem get_data_from_field (file_descriptor : list string)
  (columns : list (list Z)) (delimiter : option string)
  (d : table (list cell)) (i : Z) (n : nat) (line : string)
  (fields : list string) :
  _get_data_from str_split set_iter file_descriptor columns delimiter = Ok d ->
  In i (concat columns) ->
  nth_error file_descriptor n = Some line ->
  str_split line delimiter = Ok fields ->
  exists v,
    nth_error (tbl_default d i) n = Some (Field v) /\
    (0 <= i -> nth_error fields (Z.to_nat i) = Some v) /\
    (i = -1 -> nth_error fields (List.length fields - 1) = Some v
               /\ fields <> []).
Proof.
  unfold _get_data_from. intros H Hi Hline Hsplit.
  destruct (read_lines_spec str_split _ _ _ (set_iter_NoDup (concat columns))
              _ _ H) as [Hin _].
  destruct (Hin i (proj2 (set_iter_In _ _) Hi)) as [col [Hcol Ht]].
  cbn [tbl_default tbl_get app] in Ht. change (tbl_default d i = col) in Ht.
  rewrite Ht.
  destruct (nth_error col n) as [c|] eqn:Hc.
  - pose proof (Forall2_nth_error_both _ _ _ _ _ _ Hcol Hline Hc)
      as [fields' [v [Hs [Hg ->]]]].
    rewrite Hsplit in Hs. inversion Hs; subst fields'.
    exists v. split; [reflexivity|].
    apply getitem_z_ok in Hg. destruct Hg as [j [Hb Hn]]. split.
    + intros Hpos. rewrite bucket_nonneg in Hb by assumption.
      destruct (i <? Z.of_nat (List.length fields)); [|discriminate].
      inversion Hb; subst j. assumption.
    + intros ->. rewrite bucket_minus_one in Hb.
      destruct (Nat.eqb_spec (List.length fields) 0) as [H0|Hne];
        [discriminate|].
      inversion Hb; subst j. split; [assumption|].
      intros ->. now apply Hne.
  - exfalso. apply nth_error_None in Hc.
    pose proof (Forall2_length Hcol) as Hl.
    assert (n < List.length file_descriptor)%nat
      by (apply nth_error_Some; congruence).
    lia.
Qed.

End ColumnNumbers.

Lemma get_data_from_field_witness :
  exists v,
    nth_error
      (tbl_default [(-1, [Field "x"; Field "y"]); (0, [Field "1"; Field "2"])]
         (-1)) 1 = Some (Field v) /\
    (0 <= -1 -> nth_error ["2"; "b"; "y"]%string (Z.to_nat (-1)) = Some v) /\
    (-1 = -1 ->
     nth_error ["2"; "b"; "y"]%string
       (List.length ["2"; "b"; "y"]%string - 1) = Some v
     /\ ["2"; "b"; "y"]%string <> []).
Proof.
  apply (get_data_from_field split_commas set_order
           (fun l => NoDup_nodup Z.eq_dec l)
           (fun l i => nodup_In Z.eq_dec l i)
           ["1,a,x"; "2,b,y"]%string [[-1; 0]] (Some ","%string)
           [(-1, [Field "x"; Field "y"]); (0, [Field "1"; Field "2"])]
           (-1) 1%nat "2,b,y"%string ["2"; "b"; "y"]%string).
  - reflexivity.
  - now left.
  - reflexivity.
  - reflexivity.
Defined.

(** ** Parsing the column arguments *)

Section ParserCallBack.

Variable int_of_str : string -> result Z.

Lemma io_comprehension_pairs (f : string -> io (list Z))
  (g : Z * Z -> list Z) (l : list string) (pairs : list (Z * Z)) :
  Forall2 (fun x ab => f x = ([], Ok (g ab))) l pairs ->
  io_comprehension f l = ([], Ok (map g pairs)).
Proof.
  induction 1 as [|x ab l pairs Hx _ IH]; [reflexivity|].
  cbn [io_comprehension map]. rewrite Hx. cbn [io_bind].
  rewrite IH. reflexivity.
Qed.

Lemma io_comprehension_stops (f : string -> io (list Z))
  (g : Z * Z -> list Z) (good rest : list string) (bad : string)
  (pairs : list (Z * Z)) (out : printed) (e : exn) :
  Forall2 (fun x ab => f x = ([], Ok (g ab))) good pairs ->
  f bad = (out, Raise e) ->
  io_comprehension f (good ++ bad :: rest) = (out, Raise e).
Proof.
  intros Hgood Hbad.
  induction Hgood as [|x ab l pairs' Hx _ IH].
  - cbn [app io_comprehension]. rewrite Hbad. reflexivity.
  - cbn [app io_comprehension]. rewrite Hx. cbn [io_bind].
    rewrite IH. reflexivity.
Qed.

(** X17.  For a plot that is no histogram, [_parser_call_back] turns column
    texts that are all accepted into their index pairs without printing;
    at the first text that is refused it stops: what that text printed is
    all that is printed, however many bad texts follow. *)
Theorem parser_call_back_pairs (plot : string) (good rest : list string)
  (bad : string) (pairs : list (Z * Z)) (out : printed) (e : exn) :
  String.eqb plot "hist" = false ->
  Forall2 (accepted int_of_str) good pairs ->
  _split_columns int_of_str bad = (out, Raise e) ->
  _parser_call_back int_of_str plot good
  = ([], Ok (map (fun ab => [fst ab; snd ab]) pairs)) /\
  _parser_call_back int_of_str plot (good ++ bad :: rest) = (out, Raise e).
Proof.
  intros Hplot Hgood Hbad. unfold _parser_call_back. rewrite Hplot.
  assert (Hgood' :
            Forall2 (fun x ab =>
                       io_bind (_split_columns int_of_str x)
                         (fun ab => ([], Ok [fst ab; snd ab]))
                       = ([], Ok [fst ab; snd ab])) good pairs).
  { induction Hgood as [|x ab l l' Hx _ IH]; constructor; [|assumption].
    unfold accepted in Hx. now rewrite Hx. }
  split.
  - exact (io_comprehension_pairs _ (fun ab => [fst ab; snd ab]) _ _ Hgood').
  - apply (io_comprehension_stops _ (fun ab => [fst ab; snd ab]) _ _ _ pairs);
      [assumption|].
    now rewrite Hbad.
Qed.

End ParserCallBack.

Lemma parser_call_back_pairs_witness :
  _parser_call_back decimal "bar" ["2,1"; "1,3"]%string
  = ([], Ok (map (fun ab => [fst ab; snd ab]) [(1, 0); (0, 2)])) /\
  _parser_call_back decimal "bar"
    (["2,1"; "1,3"]%string ++ "x"%string :: ["y"%string])
  = ([[Text columns_message; Error ValueError]], Raise ValueError).
Proof.
  apply (parser_call_back_pairs decimal "bar" ["2,1"; "1,3"]%string
           ["y"%string] "x" [(1, 0); (0, 2)]).
  - reflexivity.
  - repeat constructor.
  - reflexivity.
Defined.

(** ** Counts of a returning run *)

Lemma nth_repeat_zero (n j : nat) : nth j (repeat 0 n) 0 = 0.
Proof. revert j. induction n as [|n IH]; intros [|j]; simpl; auto. Qed.

Lemma hits_bounds (len : nat) (indices : list Z) (j : nat) :
  0 <= hits len indices j <= Z.of_nat (List.length indices).
Proof.
  unfold hits. split; [lia|].
  apply Nat2Z.inj_le. apply filter_length_le.
Qed.

(** X10.  Whenever [hist_data] returns on a non-empty sample, it returns [bins]
    counts that add up to the number of samples, each of them between 0
    and that number. *)
Theorem hist_data_conserves_counts
  (linspace : Py.num -> Py.num -> Z -> result (list Py.num))
  (data histx : list Py.num) (bins : Z) (histy : list Z) :
  data <> [] ->
  hist_data linspace data bins = Ok (histx, histy) ->
  total histy = Z.of_nat (List.length data) /\
  List.length histy = Z.to_nat bins /\
  Forall (fun c => 0 <= c <= Z.of_nat (List.length data)) histy.
Proof.
  intros Hne H. destruct data as [|a rest]; [congruence|].
  destruct (hist_data_inv _ _ _ _ _ _ H) as [data2 [Hlen Hc]].
  destruct (count_total _ _ _ Hc) as [Ht Hl].
  destruct (count_hits _ _ _ Hc) as [_ [_ Hn]].
  rewrite total_zeros in Ht. rewrite repeat_length in Hl, Hn.
  split; [lia|]. split; [assumption|].
  apply Forall_forall. intros c Hin.
  destruct (In_nth _ _ 0 Hin) as [j [Hj <-]].
  rewrite Hn.
  rewrite nth_repeat_zero, <- Hlen. pose proof (hits_bounds (Z.to_nat bins) data2 j). lia.
Qed.

Lemma hist_data_conserves_counts_witness :
  total [2; 0; 1] = Z.of_nat (List.length [Py.Int 1; Py.Int 1; Py.Int 3]) /\
  List.length [2; 0; 1] = Z.to_nat 3 /\
  Forall (fun c => 0 <= c <= Z.of_nat (List.length [Py.Int 1; Py.Int 1; Py.Int 3]))
    [2; 0; 1].
Proof.
  apply (hist_data_conserves_counts linspace_model
           [Py.Int 1; Py.Int 1; Py.Int 3]
           [Py.Float (Py.lit 1 1); Py.Float (Py.lit 2 1); Py.Float (Py.lit 3 1)]
           3 [2; 0; 1]).
  - discriminate.
  - vm_compute. reflexivity.
Defined.
